(** * Satchel: a shallow embedding of [satchel.go]

    Satchel reads a TOML manifest of container images, pulls and retags
    them through the Docker daemon, saves the selected root images into a
    gzip archive and renders a shell script that loads and pushes them
    elsewhere.  The pure helpers are embedded as functions; the stages
    that talk to the daemon, the file system and the log are embedded in
    a small monad that threads an event trace and stops at [log.Fatal]. *)

From Stdlib Require Import String Ascii List Bool Arith ZArith Lia.
Import ListNotations.
Local Open Scope list_scope.
Local Open Scope string_scope.
Local Set Warnings "-register-all".

(** ** Data model *)

(** [type Image struct] *)
Record Image : Type := mkImage {
  Registry   : string;
  Repository : string;
  Tag        : string;
  Public     : bool
}.

(** [type Descriptor struct] *)
Record Descriptor : Type := mkDescriptor {
  Images : list Image
}.

(** The fields of docker's [types.ImageSummary] that the program reads. *)
Record ImageSummary : Type := mkImageSummary {
  ID       : string;
  ParentID : string;
  RepoTags : list string
}.

(** The three package-level flag variables, set once by [flag.Parse]. *)
Record Flags : Type := mkFlags {
  inputFile     : string;
  outputFile    : string;
  includePublic : bool
}.

Definition manifest_name : string := "satchel-manifest.toml".
Definition loadScriptName : string := "load-images.sh".

(** ** Pure helpers *)

Module Img.

(** [func (i Image) ImageName() string] *)
Definition ImageName (i : Image) : string :=
  let registry := Registry i in
  let registry :=
    if negb (registry =? EmptyString) then registry ++ "/" else registry in
  registry ++ Repository i ++ ":" ++ Tag i.

(** [func (i Image) ImageNameNoRegistry() string] *)
Definition ImageNameNoRegistry (i : Image) : string :=
  Repository i ++ ":" ++ Tag i.

(** The guard [image.Public && !includePublic] that the three loops
    repeat before their [continue]. *)
Definition skipped (includePublic : bool) (image : Image) : bool :=
  Public image && negb includePublic.

End Img.
Export Img.

Module Resolver.

(** [func containsTag(tag string, tags []string) bool] *)
Fixpoint containsTag (tag : string) (tags : list string) : bool :=
  match tags with
  | [] => false
  | searchTag :: rest =>
      if searchTag =? tag then true else containsTag tag rest
  end.

(** The inner [for _, image := range images] of [findImageIds], run for
    one summary: it appends the summary's ID at the first image that is
    not skipped and whose local name is among the repo tags, and breaks. *)
Fixpoint scanImages (includePublic : bool) (images : list Image)
    (imageSummary : ImageSummary) (imageIds : list string) : list string :=
  match images with
  | [] => imageIds
  | image :: rest =>
      if skipped includePublic image then
        scanImages includePublic rest imageSummary imageIds
      else if containsTag (ImageNameNoRegistry image) (RepoTags imageSummary) then
        (imageIds ++ [ID imageSummary])%list
      else
        scanImages includePublic rest imageSummary imageIds
  end.

(** The outer [for _, imageSummary := range imageSummaries]. *)
Fixpoint scanSummaries (includePublic : bool) (images : list Image)
    (imageSummaries : list ImageSummary) (imageIds : list string)
    : list string :=
  match imageSummaries with
  | [] => imageIds
  | imageSummary :: rest =>
      let imageIds :=
        if ParentID imageSummary =? EmptyString
        then scanImages includePublic images imageSummary imageIds
        else imageIds in
      scanSummaries includePublic images rest imageIds
  end.

(** [func findImageIds(images []Image, imageSummaries []types.ImageSummary) []string];
    the global [includePublic] is an explicit argument. *)
Definition findImageIds (includePublic : bool) (images : list Image)
    (imageSummaries : list ImageSummary) : list string :=
  scanSummaries includePublic images imageSummaries [].

(** Whether some image that is not skipped has its local name among the
    repo tags of the summary. *)
Definition wanted (includePublic : bool) (images : list Image)
    (s : ImageSummary) : bool :=
  existsb (fun image =>
             negb (skipped includePublic image)
             && containsTag (ImageNameNoRegistry image) (RepoTags s))
          images.

(** A summary is selected when it is a root image and wanted. *)
Definition selected (includePublic : bool) (images : list Image)
    (s : ImageSummary) : bool :=
  (ParentID s =? EmptyString) && wanted includePublic images s.

End Resolver.
Export Resolver.

(** ** The template engine, as far as the load script uses it *)

Module Template.

Definition nl : string := String "010"%char EmptyString.
Definition dq : string := String "034"%char EmptyString.

(** Data handed to [Execute]: strings, booleans, slices, and structs or
    string-keyed maps (both are looked up by name). *)
Inductive Value : Type :=
| VString (s : string)
| VBool (b : bool)
| VSlice (elems : list Value)
| VStruct (fields : list (string * Value)).

(** Parse-tree nodes: literal text, a field chain [{{ .A.B }}] and
    [{{ range $k, $v := .A.B }} body {{ end }}]. *)
Inductive Node : Type :=
| TextNode (text : string)
| FieldNode (chain : list string)
| RangeNode (chain : list string) (body : list Node).

Fixpoint lookup (name : string) (fields : list (string * Value))
    : option Value :=
  match fields with
  | [] => None
  | (k, v) :: rest => if k =? name then Some v else lookup name rest
  end.

Fixpoint evalField (chain : list string) (dot : Value) : option Value :=
  match chain with
  | [] => Some dot
  | name :: rest =>
      match dot with
      | VStruct fields =>
          match lookup name fields with
          | Some v => evalField rest v
          | None => None
          end
      | _ => None
      end
  end.

(** [text/template] prints a string as it is (no escaping) and a boolean
    as [true] or [false]; the load script prints nothing else. *)
Definition printValue (v : Value) : option string :=
  match v with
  | VString s => Some s
  | VBool true => Some "true"
  | VBool false => Some "false"
  | _ => None
  end.

Definition cat (a b : option string) : option string :=
  match a, b with
  | Some x, Some y => Some (x ++ y)
  | _, _ => None
  end.

(** Execution of one node with the cursor at [dot]; [None] is an
    execution error.  A range sets the cursor to each element in turn. *)
Fixpoint execNode (n : Node) (dot : Value) {struct n} : option string :=
  match n with
  | TextNode text => Some text
  | FieldNode chain =>
      match evalField chain dot with
      | Some v => printValue v
      | None => None
      end
  | RangeNode chain body =>
      match evalField chain dot with
      | Some (VSlice elems) =>
          (fix each (elems : list Value) : option string :=
             match elems with
             | [] => Some EmptyString
             | e :: rest =>
                 cat ((fix walk (ns : list Node) : option string :=
                         match ns with
                         | [] => Some EmptyString
                         | n' :: ns' => cat (execNode n' e) (walk ns')
                         end) body)
                     (each rest)
             end) elems
      | _ => None
      end
  end.

Fixpoint execNodes (ns : list Node) (dot : Value) : option string :=
  match ns with
  | [] => Some EmptyString
  | n :: ns' => cat (execNode n dot) (execNodes ns' dot)
  end.

Fixpoint execEach (body : list Node) (elems : list Value) : option string :=
  match elems with
  | [] => Some EmptyString
  | e :: rest => cat (execNodes body e) (execEach body rest)
  end.

(** How [reflect] presents the program's records to the template. *)
Definition valueOfImage (i : Image) : Value :=
  VStruct [("Registry", VString (Registry i));
           ("Repository", VString (Repository i));
           ("Tag", VString (Tag i));
           ("Public", VBool (Public i))].

Definition valueOfDescriptor (d : Descriptor) : Value :=
  VStruct [("Images", VSlice (map valueOfImage (Images d)))].

(** The [map[string]interface{}] built in [generateScript]. *)
Definition scriptData (outputFile : string) (descriptor : Descriptor) : Value :=
  VStruct [("OutputFile", VString outputFile);
           ("Descriptor", valueOfDescriptor descriptor)].

Definition repo : Node := FieldNode ["Repository"].
Definition tag : Node := FieldNode ["Tag"].

(** Body of the first range of [loadScriptTemplate] (lines 35 to 38). *)
Definition tagBody : list Node :=
  [ TextNode (nl ++ "echo " ++ dq ++ "Tagging "); repo; TextNode ":"; tag;
    TextNode " -> ${repository}/"; repo; TextNode ":"; tag;
    TextNode (dq ++ nl ++ "docker tag "); repo; TextNode ":"; tag;
    TextNode " ${repository}/"; repo; TextNode ":"; tag;
    TextNode nl ].

(** Body of the second range (lines 40 to 43). *)
Definition pushBody : list Node :=
  [ TextNode (nl ++ "echo " ++ dq ++ "Pushing ${repository}/");
    repo; TextNode ":"; tag;
    TextNode (dq ++ nl ++ "docker push ${repository}/");
    repo; TextNode ":"; tag;
    TextNode nl ].

Definition scriptHead : string :=
  "#!/bin/bash" ++ nl ++ nl ++
  "repository=${1}" ++ nl ++ nl ++
  "imageFile=".

Definition scriptLoad : string :=
  nl ++ nl ++
  "if [ " ++ dq ++ "$repository" ++ dq ++ " == " ++ dq ++ dq ++ " ]; then" ++ nl ++
  "    echo " ++ dq ++ "Repository not specified" ++ dq ++ nl ++
  "    exit 1" ++ nl ++
  "fi" ++ nl ++ nl ++
  "echo Loading Images from ${imageFile}" ++ nl ++
  "docker load < ${imageFile}" ++ nl ++ nl.

Definition scriptGap : string := nl ++ nl.
Definition scriptTail : string := " " ++ nl.

(** The parse tree of the constant [loadScriptTemplate]. *)
Definition loadScriptTemplate : list Node :=
  [ TextNode scriptHead;
    FieldNode ["OutputFile"];
    TextNode scriptLoad;
    RangeNode ["Descriptor"; "Images"] tagBody;
    TextNode scriptGap;
    RangeNode ["Descriptor"; "Images"] pushBody;
    TextNode scriptTail ].

(** The text [t.Execute] produces for the load script. *)
Definition renderScript (outputFile : string) (descriptor : Descriptor)
    : option string :=
  execNodes loadScriptTemplate (scriptData outputFile descriptor).

End Template.
Export Template.

(** ** The outside world and the effect monad *)

Module Run.

(** What the program holds open: the response reader returned by
    [ImagePull], the file made by [os.Create], the reader returned by
    [ImageSave], the gzip writer, and the script file made by
    [os.OpenFile]. *)
Inductive Resource : Type :=
| PullStream (ref : string)
| OutFile (path : string)
| ExportStream
| GzipWriter
| ScriptFile (path : string).

(** Everything the program does to the outside, in the order it happens. *)
Inductive Event : Type :=
| Log (msg : string)
| Stat (path : string)
| LoadFile (path : string)
| NewEnvClient
| ImagePull (ref : string)
| ImageTag (source target : string)
| ImageList
| ImageSave (imageIds : list string)
| Create (path : string)
| Copy
| OpenFile (path : string)
| WriteFile (path : string) (content : string)
| Opened (r : Resource)
| Closed (r : Resource).

(** What [toml.LoadFile] returns on success, seen through the one thing
    the program does with it: [tree.Unmarshal(descriptor)] fills the
    descriptor with [decoded] and returns [unmarshalErr]. *)
Record Tree : Type := mkTree {
  decoded      : list Image;
  unmarshalErr : option string
}.

(** The answers of the outside world; an error is its message. *)
Record World : Type := mkWorld {
  flags           : Flags;
  statErr         : string -> option string;
  tomlLoadFile    : string -> string + Tree;
  newEnvClientErr : option string;
  imagePullErr    : string -> option string;
  imageTagErr     : string -> string -> option string;
  imageListRes    : string + list ImageSummary;
  imageSaveErr    : list string -> option string;
  createErr       : string -> option string;
  copyErr         : option string;
  openFileErr     : string -> option string;
  writeErr        : option string
}.

(** A call either returns to its caller or ends the process
    ([log.Fatal] calls [os.Exit(1)]; deferred calls do not run). *)
Inductive Outcome (A : Type) : Type :=
| Returned (a : A)
| Exited (status : nat).
Arguments Returned {A} a.
Arguments Exited {A} status.

Definition M (A : Type) : Type :=
  World -> list Event -> Outcome A * list Event.

Definition ret {A : Type} (a : A) : M A :=
  fun _ tr => (Returned a, tr).

Definition bind {A B : Type} (m : M A) (k : A -> M B) : M B :=
  fun w tr =>
    match m w tr with
    | (Returned a, tr') => k a w tr'
    | (Exited status, tr') => (Exited status, tr')
    end.

Definition ask {A : Type} (f : World -> A) : M A :=
  fun w tr => (Returned (f w), tr).

Definition emit (e : Event) : M unit :=
  fun _ tr => (Returned tt, (tr ++ [e])%list).

Declare Scope run_scope.
Delimit Scope run_scope with run.
Notation "x <- m ;; k" := (bind m (fun x => k))
  (at level 61, m at next level, right associativity) : run_scope.
Notation "m ;; k" := (bind m (fun _ => k))
  (at level 61, right associativity) : run_scope.
Local Open Scope run_scope.

(** [log.Printf] *)
Definition log_Printf (msg : string) : M unit := emit (Log msg).

(** [log.Fatal] and [log.Fatalf]: print, then [os.Exit(1)]. *)
Definition log_Fatal {A : Type} (msg : string) : M A :=
  fun _ tr => (Exited 1, (tr ++ [Log msg])%list).

(** The events a computation adds when started from the empty trace, and
    its outcome there. *)
Definition trace {A : Type} (m : M A) (w : World) : list Event :=
  snd (m w []).
Definition outcome {A : Type} (m : M A) (w : World) : Outcome A :=
  fst (m w []).

(** The resources open after a trace. *)
Definition resource_eqb (a b : Resource) : bool :=
  match a, b with
  | PullStream p, PullStream q => p =? q
  | OutFile p, OutFile q => p =? q
  | ExportStream, ExportStream => true
  | GzipWriter, GzipWriter => true
  | ScriptFile p, ScriptFile q => p =? q
  | _, _ => false
  end.

Fixpoint release (r : Resource) (open : list Resource) : list Resource :=
  match open with
  | [] => []
  | r' :: rest => if resource_eqb r r' then rest else r' :: release r rest
  end.

Fixpoint held_from (open : list Resource) (tr : list Event) : list Resource :=
  match tr with
  | [] => open
  | Opened r :: rest => held_from (r :: open) rest
  | Closed r :: rest => held_from (release r open) rest
  | _ :: rest => held_from open rest
  end.

Definition held (tr : list Event) : list Resource := held_from [] tr.

Definition is_log (e : Event) : bool :=
  match e with Log _ => true | _ => false end.

(** The log lines of a trace. *)
Definition logs (tr : list Event) : list Event := filter is_log tr.

(** *** The calls into the libraries *)

Inductive Client : Type := DockerClient.
Inductive File : Type := FileHandle (path : string) | NilFile.

(** [tree.Unmarshal(descriptor)], called on the zero descriptor: what it
    stored in the descriptor, and the error it returned. *)
Definition tree_Unmarshal (tree : Tree) : Descriptor * option string :=
  (mkDescriptor (decoded tree), unmarshalErr tree).

Definition os_Stat (path : string) : M (option string) :=
  emit (Stat path) ;; ask (fun w => statErr w path).

Definition toml_LoadFile (path : string) : M (string + Tree) :=
  emit (LoadFile path) ;; ask (fun w => tomlLoadFile w path).

Definition docker_NewEnvClient : M (option string) :=
  emit NewEnvClient ;; ask newEnvClientErr.

(** [cli.ImagePull]: on success the daemon's response comes back as an
    open reader, which the caller receives beside the nil error. *)
Definition cli_ImagePull (cli : Client) (ref : string) : M (option string) :=
  emit (ImagePull ref) ;;
  err <- ask (fun w => imagePullErr w ref) ;;
  match err with
  | Some e => ret (Some e)
  | None => emit (Opened (PullStream ref)) ;; ret None
  end.

Definition cli_ImageTag (cli : Client) (source target : string)
    : M (option string) :=
  emit (ImageTag source target) ;; ask (fun w => imageTagErr w source target).

Definition cli_ImageList (cli : Client) : M (string + list ImageSummary) :=
  emit ImageList ;; ask imageListRes.

Definition cli_ImageSave (cli : Client) (imageIds : list string)
    : M (option string) :=
  emit (ImageSave imageIds) ;;
  err <- ask (fun w => imageSaveErr w imageIds) ;;
  match err with
  | Some e => ret (Some e)
  | None => emit (Opened ExportStream) ;; ret None
  end.

Definition os_Create (path : string) : M (option string) :=
  emit (Create path) ;;
  err <- ask (fun w => createErr w path) ;;
  match err with
  | Some e => ret (Some e)
  | None => emit (Opened (OutFile path)) ;; ret None
  end.

Definition gzip_HuffmanOnly : Z := (-2)%Z.
Definition gzip_BestCompression : Z := 9%Z.

(** [gzip.NewWriterLevel]: a level below [HuffmanOnly] or above
    [BestCompression] is refused. *)
Definition gzip_NewWriterLevel (level : Z) : M (option string) :=
  if (level <? gzip_HuffmanOnly)%Z || (gzip_BestCompression <? level)%Z
  then ret (Some "gzip: invalid compression level")
  else emit (Opened GzipWriter) ;; ret None.

Definition io_Copy : M (option string) :=
  emit Copy ;; ask copyErr.

(** [readerCloser.Close()] *)
Definition readerCloser_Close : M unit := emit (Closed ExportStream).

(** [gzipWriter.Close()] flushes and writes the footer; it does not
    close the underlying file. *)
Definition gzipWriter_Close : M unit := emit (Closed GzipWriter).

(** [os.OpenFile(name, O_WRONLY|O_CREATE|O_TRUNC, 0700)]: on error the
    file is nil. *)
Definition os_OpenFile (path : string) : M (File * option string) :=
  emit (OpenFile path) ;;
  err <- ask (fun w => openFileErr w path) ;;
  match err with
  | Some e => ret (NilFile, Some e)
  | None => emit (Opened (ScriptFile path)) ;; ret (FileHandle path, None)
  end.

(** [f.Close()]; on the nil file it only returns an error. *)
Definition file_Close (f : File) : M unit :=
  match f with
  | FileHandle path => emit (Closed (ScriptFile path))
  | NilFile => ret tt
  end.

(** [t.Execute(f, data)]: an execution error, a write to the nil file
    and a failed write are returned as the error; otherwise the rendered
    text is in the file. *)
Definition template_Execute (t : list Node) (f : File) (data : Value)
    : M (option string) :=
  match execNodes t data with
  | None => ret (Some "template: script: error calling Execute")
  | Some text =>
      match f with
      | NilFile => ret (Some "invalid argument")
      | FileHandle path =>
          err <- ask writeErr ;;
          match err with
          | Some e => ret (Some e)
          | None => emit (WriteFile path text) ;; ret None
          end
      end
  end.

End Run.
Export Run.

(** ** The stages of [main] *)

Module Satchel.

Local Open Scope run_scope.

(** [func validate()] *)
Definition validate : M unit :=
  inputFile <- ask (fun w => inputFile (flags w)) ;;
  err <- os_Stat inputFile ;;
  match err with
  | Some _ => log_Fatal ("Input file '" ++ inputFile ++ "' not found")
  | None => ret tt
  end.

(** The body of the loop of [loadDescriptor] for one index. *)
Definition defaultTag (image : Image) : Image :=
  if Tag image =? EmptyString
  then mkImage (Registry image) (Repository image) "latest" (Public image)
  else image.

(** [for i := range descriptor.Images] of [loadDescriptor]. *)
Definition defaultTags (images : list Image) : list Image :=
  map defaultTag images.

(** [func loadDescriptor() *Descriptor]; the result of
    [tree.Unmarshal(descriptor)] is dropped, as in the source. *)
Definition loadDescriptor : M Descriptor :=
  inputFile <- ask (fun w => inputFile (flags w)) ;;
  r <- toml_LoadFile inputFile ;;
  match r with
  | inl err => log_Fatal ("Error Loading File " ++ inputFile ++ ": " ++ err)
  | inr tree =>
      let (descriptor, _) := tree_Unmarshal tree in
      ret (mkDescriptor (defaultTags (Images descriptor)))
  end.

(** [func newDockerClient() *docker.Client] *)
Definition newDockerClient : M Client :=
  err <- docker_NewEnvClient ;;
  match err with
  | Some e => log_Fatal e
  | None => ret DockerClient
  end.

(** The loop of [pullImages]; the reader that [cli.ImagePull] returns is
    dropped without being read or closed. *)
Fixpoint pullLoop (cli : Client) (images : list Image) : M unit :=
  match images with
  | [] => ret tt
  | image :: rest =>
      public <- ask (fun w => includePublic (flags w)) ;;
      if Public image && negb public then pullLoop cli rest
      else
        log_Printf ("Pulling Image " ++ ImageName image ++ nl) ;;
        err <- cli_ImagePull cli (ImageName image) ;;
        match err with
        | Some e => log_Fatal e
        | None => pullLoop cli rest
        end
  end.

(** [func pullImages(images []Image)] *)
Definition pullImages (images : list Image) : M unit :=
  cli <- newDockerClient ;;
  pullLoop cli images.

(** The loop of [tagImages]; what [cli.ImageTag] returns is dropped. *)
Fixpoint tagLoop (cli : Client) (images : list Image) : M unit :=
  match images with
  | [] => ret tt
  | image :: rest =>
      public <- ask (fun w => includePublic (flags w)) ;;
      if Public image && negb public then tagLoop cli rest
      else
        let src := ImageName image in
        let dest := ImageNameNoRegistry image in
        log_Printf ("Tagging Image " ++ src ++ " -> " ++ dest) ;;
        _ <- cli_ImageTag cli src dest ;;
        tagLoop cli rest
  end.

(** [func tagImages(images []Image)] *)
Definition tagImages (images : list Image) : M unit :=
  cli <- newDockerClient ;;
  tagLoop cli images.

(** [func saveImages(images []Image)].  The two deferred calls run when
    the function returns, last registered first; the error of [io.Copy]
    is assigned and never read. *)
Definition saveImages (images : list Image) : M unit :=
  cli <- newDockerClient ;;
  r <- cli_ImageList cli ;;
  match r with
  | inl err => log_Fatal ("Error Getting Docker Image List: " ++ err)
  | inr imageSummaries =>
      public <- ask (fun w => includePublic (flags w)) ;;
      let imageIds := findImageIds public images imageSummaries in
      err <- cli_ImageSave cli imageIds ;;
      match err with
      | Some e => log_Fatal ("Error saving images: " ++ e)
      | None =>
          outputFile <- ask (fun w => outputFile (flags w)) ;;
          log_Printf ("Writing images to " ++ outputFile) ;;
          err <- os_Create outputFile ;;
          match err with
          | Some e =>
              log_Fatal ("Error Creating Image File " ++ outputFile ++ ": " ++ e)
          | None =>
              err <- gzip_NewWriterLevel gzip_BestCompression ;;
              match err with
              | Some e =>
                  log_Fatal ("Error Creating Compressed Archive "
                             ++ outputFile ++ ": " ++ e)
              | None =>
                  _ <- io_Copy ;;
                  readerCloser_Close ;;
                  gzipWriter_Close
              end
          end
      end
  end.

(** [func generateScript(descriptor Descriptor)].  The constant template
    always parses; the error of [os.OpenFile] is overwritten by the one
    of [t.Execute]; the deferred [f.Close()] runs on return. *)
Definition generateScript (descriptor : Descriptor) : M unit :=
  log_Printf ("Writing load script '" ++ loadScriptName ++ "'") ;;
  opened <- os_OpenFile loadScriptName ;;
  let f := fst opened in
  outputFile <- ask (fun w => outputFile (flags w)) ;;
  let data := scriptData outputFile descriptor in
  err <- template_Execute loadScriptTemplate f data ;;
  match err with
  | Some e => log_Fatal ("Error generating load script: " ++ e)
  | None => file_Close f
  end.

(** [func main()], after [flag.Parse] has filled the flags. *)
Definition main : M unit :=
  validate ;;
  descriptor <- loadDescriptor ;;
  pullImages (Images descriptor) ;;
  tagImages (Images descriptor) ;;
  saveImages (Images descriptor) ;;
  generateScript descriptor.

End Satchel.
Export Satchel.

(** ** Sample inputs: the manifest of the README *)

Module Samples.

Definition java : Image := mkImage EmptyString "java" "8" true.
Definition pause : Image :=
  mkImage "gcr.io" "google-containers/pause" "1.0" false.
(** A second manifest entry with the local name of [pause]. *)
Definition pause_mirror : Image :=
  mkImage "quay.io" "google-containers/pause" "1.0" false.
Definition readme_images : list Image := [java; pause].

Definition java_summary : ImageSummary :=
  mkImageSummary "sha256:java" EmptyString ["java:8"].
Definition pause_summary : ImageSummary :=
  mkImageSummary "sha256:pause" EmptyString
                 ["gcr.io/google-containers/pause:1.0";
                  "google-containers/pause:1.0"].
Definition layer_summary : ImageSummary :=
  mkImageSummary "sha256:layer" "sha256:pause"
                 ["google-containers/pause:1.0"].
Definition readme_summaries : list ImageSummary :=
  [java_summary; layer_summary; pause_summary].

Definition readme_flags (public : bool) : Flags :=
  mkFlags "satchel.toml" "my-images.tgz" public.

(** A world in which every call succeeds. *)
Definition calm (f : Flags) (manifest : list Image)
    (sums : list ImageSummary) : World :=
  mkWorld f (fun _ => None) (fun _ => inr (mkTree manifest None)) None
          (fun _ => None) (fun _ _ => None) (inr sums) (fun _ => None)
          (fun _ => None) None (fun _ => None) None.

(** The same world, except that [pull] is refused for one reference. *)
Definition pull_refused (ref : string) (w : World) : World :=
  mkWorld (flags w) (statErr w) (tomlLoadFile w) (newEnvClientErr w)
          (fun r => if r =? ref then Some "pull access denied"
                    else imagePullErr w r)
          (imageTagErr w) (imageListRes w) (imageSaveErr w) (createErr w)
          (copyErr w) (openFileErr w) (writeErr w).

(** The same world with another answer of the daemon to [tag]. *)
Definition with_tag_answer (answer : string -> string -> option string)
    (w : World) : World :=
  mkWorld (flags w) (statErr w) (tomlLoadFile w) (newEnvClientErr w)
          (imagePullErr w) answer (imageListRes w) (imageSaveErr w)
          (createErr w) (copyErr w) (openFileErr w) (writeErr w).

(** The same world in which [io.Copy] fails. *)
Definition copy_fails (w : World) : World :=
  mkWorld (flags w) (statErr w) (tomlLoadFile w) (newEnvClientErr w)
          (imagePullErr w) (imageTagErr w) (imageListRes w) (imageSaveErr w)
          (createErr w) (Some "unexpected EOF") (openFileErr w) (writeErr w).

End Samples.
Import Samples.


(** ** Vocabulary of the statements about the stages *)

Module Stages.

(** The manifest without its public images. *)
Definition private_only (images : list Image) : list Image :=
  filter (fun image => negb (Public image)) images.

(** The images a loop does not skip. *)
Definition kept (public : bool) (images : list Image) : list Image :=
  filter (fun image => negb (skipped public image)) images.

(** What the pull loop does for one image up to the daemon's answer. *)
Definition pullAttempt (image : Image) : list Event :=
  [Log ("Pulling Image " ++ ImageName image ++ nl);
   ImagePull (ImageName image)].

(** What the pull loop does for one image whose pull succeeds: the
    response reader is open from then on. *)
Definition pullEvents (image : Image) : list Event :=
  (pullAttempt image ++ [Opened (PullStream (ImageName image))])%list.


(** What the tag loop does for one image. *)
Definition tagEvents (image : Image) : list Event :=
  [Log ("Tagging Image " ++ ImageName image ++ " -> "
        ++ ImageNameNoRegistry image);
   ImageTag (ImageName image) (ImageNameNoRegistry image)].

End Stages.
Export Stages.

Module StageSamples.

(** The README manifest with the private image first. *)
Definition private_first : list Image := [pause; java].

End StageSamples.
Export StageSamples.

(** ** The load script, as the specification describes it *)

Module Script.

Definition joined (parts : list string) : string :=
  fold_right append EmptyString parts.

(** The retag command for one image: from its local name to the same
    name under the destination registry. *)
Definition tagCommand (image : Image) : string :=
  "docker tag " ++ ImageNameNoRegistry image
  ++ " ${repository}/" ++ ImageNameNoRegistry image.

(** The push command for one image. *)
Definition pushCommand (image : Image) : string :=
  "docker push ${repository}/" ++ ImageNameNoRegistry image.

(** A progress line followed by the command line. *)
Definition tagBlock (image : Image) : string :=
  nl ++ "echo " ++ dq ++ "Tagging " ++ ImageNameNoRegistry image
  ++ " -> ${repository}/" ++ ImageNameNoRegistry image ++ dq ++ nl
  ++ tagCommand image ++ nl.

Definition pushBlock (image : Image) : string :=
  nl ++ "echo " ++ dq ++ "Pushing ${repository}/"
  ++ ImageNameNoRegistry image ++ dq ++ nl
  ++ pushCommand image ++ nl.

(** The whole script: preamble, one tag block per image in the order
    given, then one push block per image in the same order. *)
Definition scriptText (outputFile : string) (images : list Image) : string :=
  scriptHead ++ outputFile ++ scriptLoad
  ++ joined (map tagBlock images)
  ++ scriptGap
  ++ joined (map pushBlock images)
  ++ scriptTail.

(** The lines of a text, split at line feeds. *)
Fixpoint lines (s : string) : list string :=
  match s with
  | EmptyString => [EmptyString]
  | String c rest =>
      if Ascii.eqb c "010"%char then EmptyString :: lines rest
      else match lines rest with
           | l :: ls => String c l :: ls
           | [] => [String c EmptyString]
           end
  end.

(** The lines of a script that start with a given command word. *)
Definition commands (verb : string) (script : string) : list string :=
  filter (String.prefix verb) (lines script).

(** A name that stays on its line. *)
Fixpoint one_line (s : string) : bool :=
  match s with
  | EmptyString => true
  | String c rest => negb (Ascii.eqb c "010"%char) && one_line rest
  end.

End Script.
Export Script.

Module ScriptLines.

(** An image whose repository and tag hold no line feed. *)
Definition plain (image : Image) : bool :=
  one_line (Repository image) && one_line (Tag image).

(** Lines put back together, each ended by a line feed. *)
Definition unlines (ls : list string) (rest : string) : string :=
  fold_right (fun l acc => l ++ nl ++ acc) rest ls.

Definition headLines (outputFile : string) : list string :=
  [ "#!/bin/bash"; EmptyString; "repository=${1}"; EmptyString;
    "imageFile=" ++ outputFile; EmptyString;
    "if [ " ++ dq ++ "$repository" ++ dq ++ " == " ++ dq ++ dq ++ " ]; then";
    "    echo " ++ dq ++ "Repository not specified" ++ dq;
    "    exit 1"; "fi"; EmptyString;
    "echo Loading Images from ${imageFile}";
    "docker load < ${imageFile}"; EmptyString ].

Definition tagLines (image : Image) : list string :=
  [ EmptyString;
    "echo " ++ dq ++ "Tagging " ++ ImageNameNoRegistry image
      ++ " -> ${repository}/" ++ ImageNameNoRegistry image ++ dq;
    tagCommand image ].

Definition pushLines (image : Image) : list string :=
  [ EmptyString;
    "echo " ++ dq ++ "Pushing ${repository}/"
      ++ ImageNameNoRegistry image ++ dq;
    pushCommand image ].

Definition scriptLines (outputFile : string) (images : list Image)
    : list string :=
  (headLines outputFile ++ flat_map tagLines images
   ++ [EmptyString; EmptyString] ++ flat_map pushLines images ++ [" "])%list.

End ScriptLines.
Export ScriptLines.

Module LoaderSamples.

(** A manifest entry without a tag, as [Unmarshal] leaves it. *)
Definition busybox : Image := mkImage EmptyString "busybox" EmptyString false.

Definition untagged_world : World :=
  calm (readme_flags false) [busybox; pause] readme_summaries.

(** A world whose manifest is well-formed TOML that does not fit the
    [Descriptor] (for instance [public] given as a string):
    [toml.LoadFile] succeeds, [Unmarshal] returns an error and leaves the
    descriptor empty. *)
Definition undecodable_world : World :=
  mkWorld (readme_flags false) (fun _ => None)
          (fun _ => inr (mkTree [] (Some "Can't convert yes(string) to bool")))
          None (fun _ => None) (fun _ _ => None) (inr readme_summaries)
          (fun _ => None) (fun _ => None) None (fun _ => None) None.

(** The README run, and the same run with a failing [io.Copy]. *)
Definition readme_world : World :=
  calm (readme_flags false) readme_images readme_summaries.

Definition broken_copy_world : World := copy_fails readme_world.

End LoaderSamples.
Export LoaderSamples.

(** ** Worlds in which one call fails *)

Module FailureSamples.

Definition no_client : World :=
  mkWorld (readme_flags false) (fun _ => None)
          (fun _ => inr (mkTree readme_images None))
          (Some "unable to parse docker host")
          (fun _ => None) (fun _ _ => None) (inr readme_summaries)
          (fun _ => None) (fun _ => None) None (fun _ => None) None.

Definition no_manifest : World :=
  mkWorld (readme_flags false) (fun _ => Some "no such file or directory")
          (fun _ => inl "no such file or directory") None
          (fun _ => None) (fun _ _ => None) (inr readme_summaries)
          (fun _ => None) (fun _ => None) None (fun _ => None) None.

Definition bad_toml : World :=
  mkWorld (readme_flags false) (fun _ => None)
          (fun _ => inl "(1, 1): unexpected token") None
          (fun _ => None) (fun _ _ => None) (inr readme_summaries)
          (fun _ => None) (fun _ => None) None (fun _ => None) None.

Definition no_list : World :=
  mkWorld (readme_flags false) (fun _ => None)
          (fun _ => inr (mkTree readme_images None)) None
          (fun _ => None) (fun _ _ => None) (inl "daemon is not running")
          (fun _ => None) (fun _ => None) None (fun _ => None) None.

Definition no_export : World :=
  mkWorld (readme_flags false) (fun _ => None)
          (fun _ => inr (mkTree readme_images None)) None
          (fun _ => None) (fun _ _ => None) (inr readme_summaries)
          (fun _ => Some "no such image") (fun _ => None) None
          (fun _ => None) None.

Definition no_archive : World :=
  mkWorld (readme_flags false) (fun _ => None)
          (fun _ => inr (mkTree readme_images None)) None
          (fun _ => None) (fun _ _ => None) (inr readme_summaries)
          (fun _ => None) (fun _ => Some "permission denied") None
          (fun _ => None) None.

Definition no_script : World :=
  mkWorld (readme_flags false) (fun _ => None)
          (fun _ => inr (mkTree readme_images None)) None
          (fun _ => None) (fun _ _ => None) (inr readme_summaries)
          (fun _ => None) (fun _ => None) None
          (fun _ => Some "permission denied") None.

Definition disk_full : World :=
  mkWorld (readme_flags false) (fun _ => None)
          (fun _ => inr (mkTree readme_images None)) None
          (fun _ => None) (fun _ _ => None) (inr readme_summaries)
          (fun _ => None) (fun _ => None) None
          (fun _ => None) (Some "no space left on device").

(** The README manifest read with [-public], the pull of the second
    image refused. *)
Definition second_pull_refused : World :=
  pull_refused (ImageName pause)
               (calm (readme_flags true) readme_images readme_summaries).

(** The README images under another registry and with the public bits
    swapped. *)
Definition java_elsewhere : Image := mkImage "docker.io" "java" "8" false.
Definition pause_elsewhere : Image :=
  mkImage EmptyString "google-containers/pause" "1.0" true.

End FailureSamples.
Export FailureSamples.

Module PublicSamples.

(** A manifest of public images only, read without [-public]. *)
Definition alpine : Image := mkImage EmptyString "alpine" "3.8" true.
Definition public_only : list Image := [java; alpine].
Definition public_only_world : World :=
  calm (readme_flags false) public_only readme_summaries.

End PublicSamples.
Export PublicSamples.
(** ** The resolver *)

Module ResolverFacts.

Lemma containsTag_In (t : string) (tags : list string) :
  containsTag t tags = true <-> In t tags.
Proof.
  induction tags as [|searchTag rest IH]; simpl.
  - split; [discriminate | tauto].
  - destruct (String.eqb_spec searchTag t) as [E|N].
    + split; auto.
    + rewrite IH. split; [auto | intros [E|H]; [contradiction | exact H]].
Qed.

Lemma skipped_false (public : bool) (image : Image) :
  skipped public image = false <-> ~ (Public image = true /\ public = false).
Proof.
  unfold skipped. destruct (Public image), public; simpl; split;
    try reflexivity; try discriminate; intros H;
    try (intros [? ?]; discriminate); exfalso; apply H; auto.
Qed.

(** The inner loop appends the ID exactly when the summary is wanted. *)
Lemma scanImages_wanted public images s acc :
  scanImages public images s acc =
  if wanted public images s then (acc ++ [ID s])%list else acc.
Proof.
  induction images as [|image rest IH]; simpl; [reflexivity|].
  destruct (skipped public image); simpl; [exact IH|].
  destruct (containsTag (ImageNameNoRegistry image) (RepoTags s)); simpl;
    [reflexivity | exact IH].
Qed.

(** The outer loop keeps, in daemon order, one ID per selected summary. *)
Lemma scanSummaries_filter public images sums acc :
  scanSummaries public images sums acc =
  (acc ++ map ID (filter (selected public images) sums))%list.
Proof.
  revert acc.
  induction sums as [|s rest IH]; intros acc; simpl.
  - now rewrite app_nil_r.
  - rewrite IH, scanImages_wanted. unfold selected.
    destruct (ParentID s =? EmptyString); simpl; [|reflexivity].
    destruct (wanted public images s); simpl; [|reflexivity].
    now rewrite <- app_assoc.
Qed.

Lemma findImageIds_filter public images sums :
  findImageIds public images sums =
  map ID (filter (selected public images) sums).
Proof. unfold findImageIds. now rewrite scanSummaries_filter. Qed.

Lemma wanted_true public images s :
  wanted public images s = true <->
  exists image, In image images
    /\ ~ (Public image = true /\ public = false)
    /\ In (ImageNameNoRegistry image) (RepoTags s).
Proof.
  unfold wanted. rewrite existsb_exists.
  split; intros [image [Hin H]]; exists image; split; auto.
  - apply andb_true_iff in H. destruct H as [Hs Hc].
    apply negb_true_iff in Hs.
    split; [now apply skipped_false | now apply containsTag_In].
  - destruct H as [Hs Hc]. apply andb_true_iff. split.
    + apply negb_true_iff. now apply skipped_false.
    + now apply containsTag_In.
Qed.

Lemma selected_true public images s :
  selected public images s = true <->
  ParentID s = EmptyString /\
  exists image, In image images
    /\ ~ (Public image = true /\ public = false)
    /\ In (ImageNameNoRegistry image) (RepoTags s).
Proof.
  unfold selected. rewrite andb_true_iff, wanted_true.
  now rewrite String.eqb_eq.
Qed.

(** Skipped images play no part in the choice. *)
Lemma wanted_private_only images s :
  wanted false images s =
  wanted false (filter (fun i => negb (Public i)) images) s.
Proof.
  induction images as [|image rest IH]; simpl; [reflexivity|].
  destruct (Public image) eqn:E; simpl; unfold skipped; rewrite E; simpl.
  - exact IH.
  - now rewrite IH.
Qed.

Lemma count_occ_map_filter (f : ImageSummary -> bool) sums id :
  count_occ string_dec (map ID (filter f sums)) id
  <= count_occ string_dec (map ID sums) id.
Proof.
  induction sums as [|s rest IH]; simpl; [lia|].
  destruct (f s); simpl; destruct (string_dec (ID s) id); lia.
Qed.

Lemma NoDup_map_filter (f : ImageSummary -> bool) sums :
  NoDup (map ID sums) -> NoDup (map ID (filter f sums)).
Proof.
  induction sums as [|s rest IH]; simpl; intros H; [constructor|].
  inversion H as [|x l Hnot Hrest]; subst.
  destruct (f s); simpl; [|auto].
  constructor; [|auto].
  intros Hin. apply Hnot.
  apply in_map_iff in Hin. destruct Hin as [s' [E Hs']].
  apply filter_In in Hs'. apply in_map_iff. exists s'. tauto.
Qed.

(** Membership in the resolver's result. *)
Lemma findImageIds_member public images sums id :
  In id (findImageIds public images sums) <->
  exists s, In s sums /\ ID s = id /\ ParentID s = EmptyString /\
    exists image, In image images
      /\ ~ (Public image = true /\ public = false)
      /\ In (ImageNameNoRegistry image) (RepoTags s).
Proof.
  rewrite findImageIds_filter, in_map_iff.
  split.
  - intros [s [E Hs]]. apply filter_In in Hs. destruct Hs as [Hin Hsel].
    apply selected_true in Hsel. exists s. tauto.
  - intros [s [Hin [E Hsel]]]. exists s. split; [exact E|].
    apply filter_In. split; [exact Hin|]. now apply selected_true.
Qed.

End ResolverFacts.
Import ResolverFacts.

(** C1.  The resolver returns an ID exactly when it is the ID of a root
    summary (empty parent ID) whose repo tags contain, as an equal
    string, the local name [repository:tag] of some manifest image that
    is not both public and excluded by the flag. *)
Theorem findImageIds_exact (public : bool) (images : list Image)
    (sums : list ImageSummary) (id : string) :
  In id (findImageIds public images sums) <->
  exists s, In s sums /\ ID s = id /\ ParentID s = EmptyString /\
    exists image, In image images
      /\ ~ (Public image = true /\ public = false)
      /\ In (ImageNameNoRegistry image) (RepoTags s).
Proof. apply findImageIds_member. Qed.

(** C6.  Each daemon summary contributes at most one ID, however many
    manifest images share its local name: an ID occurs in the output no
    more often than among the summaries, so for the daemon's list of
    images, whose IDs are pairwise distinct, the output holds no ID
    twice. *)
Theorem findImageIds_no_new_duplicates (public : bool) (images : list Image)
    (sums : list ImageSummary) :
  (forall id, count_occ string_dec (findImageIds public images sums) id
              <= count_occ string_dec (map ID sums) id)
  /\ (NoDup (map ID sums) -> NoDup (findImageIds public images sums)).
Proof.
  rewrite findImageIds_filter. split.
  - intros id. apply count_occ_map_filter.
  - apply NoDup_map_filter.
Qed.

Lemma findImageIds_no_new_duplicates_witness :
  NoDup (map ID readme_summaries)
  /\ NoDup (findImageIds false [pause; pause_mirror; pause] readme_summaries)
  /\ findImageIds false [pause; pause_mirror; pause] readme_summaries
     = ["sha256:pause"].
Proof.
  assert (H : NoDup (map ID readme_summaries)).
  { repeat constructor; simpl; intuition discriminate. }
  split; [exact H|]. split.
  - exact (proj2 (findImageIds_no_new_duplicates
                    false [pause; pause_mirror; pause] readme_summaries) H).
  - reflexivity.
Defined.

(** ** The pull and tag stages *)

Module StageFacts.

Ltac run_step :=
  unfold cli_ImagePull, cli_ImageTag, docker_NewEnvClient, log_Printf,
    log_Fatal;
  unfold bind, ask, ret, emit; simpl.

Lemma kept_false images : kept false images = private_only images.
Proof.
  unfold kept, private_only. apply filter_ext. intros image.
  unfold skipped. now rewrite andb_true_r.
Qed.

Lemma kept_true images : kept true images = images.
Proof.
  unfold kept. induction images as [|image rest IH]; simpl; [reflexivity|].
  unfold skipped at 1. rewrite andb_false_r. simpl. now rewrite IH.
Qed.

Lemma kept_cons public image rest :
  kept public (image :: rest)
  = if Public image && negb public then kept public rest
    else image :: kept public rest.
Proof.
  unfold kept, skipped. simpl.
  now destruct (Public image && negb public).
Qed.

Lemma kept_idem public images :
  kept public (kept public images) = kept public images.
Proof.
  unfold kept. induction images as [|image rest IH]; simpl; [reflexivity|].
  destruct (skipped public image) eqn:E; simpl; [exact IH|].
  rewrite E. simpl. now rewrite IH.
Qed.

(** One turn of the pull loop. *)
Lemma pullLoop_cons cli image rest w tr :
  pullLoop cli (image :: rest) w tr
  = if Public image && negb (includePublic (flags w))
    then pullLoop cli rest w tr
    else match imagePullErr w (ImageName image) with
         | Some e => (Exited 1, (tr ++ pullAttempt image ++ [Log e])%list)
         | None => pullLoop cli rest w (tr ++ pullEvents image)%list
         end.
Proof.
  simpl. run_step.
  destruct (Public image && negb (includePublic (flags w))); [reflexivity|].
  simpl. destruct (imagePullErr w (ImageName image)); simpl;
    unfold pullEvents, pullAttempt; simpl; now rewrite <- !app_assoc.
Qed.

(** The pull loop never looks at a skipped image. *)
Lemma pullLoop_kept cli images w tr :
  pullLoop cli images w tr
  = pullLoop cli (kept (includePublic (flags w)) images) w tr.
Proof.
  revert tr. induction images as [|image rest IH]; intros tr;
    [reflexivity|].
  rewrite kept_cons, pullLoop_cons.
  destruct (Public image && negb (includePublic (flags w))) eqn:E.
  - apply IH.
  - rewrite pullLoop_cons, E.
    destruct (imagePullErr w (ImageName image)); [reflexivity | apply IH].
Qed.

(** The tag loop always returns: it logs and tags each kept image, in
    manifest order, whatever the daemon answers. *)
Lemma tagLoop_run cli images w tr :
  tagLoop cli images w tr
  = (Returned tt,
     (tr ++ flat_map tagEvents (kept (includePublic (flags w)) images))%list).
Proof.
  revert tr. induction images as [|image rest IH]; intros tr; simpl.
  - run_step. now rewrite app_nil_r.
  - run_step. unfold skipped.
    destruct (Public image && negb (includePublic (flags w))); simpl.
    + apply IH.
    + rewrite IH. now rewrite <- !app_assoc.
Qed.

(** While pulls succeed, the pull loop logs and pulls each kept image. *)
Lemma pullLoop_prefix cli pre rest w tr :
  (forall image, In image (kept (includePublic (flags w)) pre) ->
                 imagePullErr w (ImageName image) = None) ->
  pullLoop cli (pre ++ rest)%list w tr
  = pullLoop cli rest w
      (tr ++ flat_map pullEvents (kept (includePublic (flags w)) pre))%list.
Proof.
  revert tr. induction pre as [|image pre IH]; intros tr Hok.
  - simpl. now rewrite app_nil_r.
  - rewrite kept_cons in *. cbn [app]. rewrite pullLoop_cons.
    destruct (Public image && negb (includePublic (flags w))) eqn:E.
    + apply IH. exact Hok.
    + rewrite (Hok image (or_introl eq_refl)).
      rewrite IH by (intros; apply Hok; now right).
      cbn [flat_map]. now rewrite <- !app_assoc.
Qed.

(** The trace only grows. *)
Lemma pullLoop_extends cli images w tr :
  exists more, snd (pullLoop cli images w tr) = (tr ++ more)%list.
Proof.
  revert tr. induction images as [|image rest IH]; intros tr.
  - exists []. simpl. run_step. now rewrite app_nil_r.
  - rewrite pullLoop_cons.
    destruct (Public image && negb (includePublic (flags w))).
    + apply IH.
    + destruct (imagePullErr w (ImageName image)).
      * eexists. reflexivity.
      * destruct (IH (tr ++ pullEvents image)%list) as [more E].
        rewrite E. eexists. rewrite <- app_assoc. reflexivity.
Qed.

(** Every pull the loop asks for is the pull of a kept image. *)
Lemma pullLoop_pulls cli images w tr ref :
  In (ImagePull ref) (snd (pullLoop cli images w tr)) ->
  In (ImagePull ref) tr
  \/ exists image, In image (kept (includePublic (flags w)) images)
                   /\ ref = ImageName image.
Proof.
  revert tr. induction images as [|image rest IH]; intros tr.
  - simpl. run_step. auto.
  - rewrite pullLoop_cons, kept_cons.
    destruct (Public image && negb (includePublic (flags w))) eqn:E.
    + apply IH.
    + assert (Hhere : forall more, In (ImagePull ref)
                (tr ++ pullAttempt image ++ more)%list ->
                In (ImagePull ref) more \/ In (ImagePull ref) tr
                \/ ref = ImageName image).
      { intros more H. apply in_app_or in H. destruct H as [H|H]; [auto|].
        simpl in H. destruct H as [H|[H|H]];
          [discriminate | injection H; auto | auto]. }
      destruct (imagePullErr w (ImageName image)) as [e|].
      * simpl. intros H.
        destruct (Hhere _ H) as [[D|[]]|[D|D]];
          [discriminate | auto | right; exists image; simpl; auto].
      * intros H. destruct (IH _ H) as [H'|[i [Hi Hr]]].
        -- unfold pullEvents in H'.
           destruct (Hhere _ H') as [[D|[]]|[D|D]];
             [discriminate | auto | right; exists image; simpl; auto].
        -- right. exists i. simpl. auto.
Qed.

Lemma kept_private public images image :
  In image (kept public images) ->
  In image images /\ ~ (Public image = true /\ public = false).
Proof.
  unfold kept. rewrite filter_In. intros [Hin Hs].
  apply negb_true_iff in Hs. split; [exact Hin | now apply skipped_false].
Qed.

Lemma findImageIds_private_only images sums :
  findImageIds false images sums
  = findImageIds false (private_only images) sums.
Proof.
  rewrite !findImageIds_filter. f_equal. apply filter_ext. intros s.
  unfold selected, private_only. now rewrite <- wanted_private_only.
Qed.

End StageFacts.
Import StageFacts.

Lemma pullImages_client_ok images w tr :
  newEnvClientErr w = None ->
  pullImages images w tr
  = pullLoop DockerClient images w (tr ++ [NewEnvClient])%list.
Proof.
  intros H. unfold pullImages, newDockerClient. run_step. now rewrite H.
Qed.

Lemma tagImages_client_ok images w tr :
  newEnvClientErr w = None ->
  tagImages images w tr
  = (Returned tt,
     (tr ++ NewEnvClient
         :: flat_map tagEvents (kept (includePublic (flags w)) images))%list).
Proof.
  intros H. unfold tagImages, newDockerClient. run_step. rewrite H.
  rewrite tagLoop_run. now rewrite <- app_assoc.
Qed.

Lemma tagImages_client_fails images w tr e :
  newEnvClientErr w = Some e ->
  tagImages images w tr = (Exited 1, (tr ++ [NewEnvClient; Log e])%list).
Proof.
  intros H. unfold tagImages, newDockerClient. run_step. rewrite H.
  now rewrite <- app_assoc.
Qed.

Lemma pullImages_kept images w tr :
  pullImages images w tr
  = pullImages (kept (includePublic (flags w)) images) w tr.
Proof.
  unfold pullImages, bind.
  destruct (newDockerClient w tr) as [[cli|status] tr']; [|reflexivity].
  rewrite pullLoop_kept.
  rewrite (pullLoop_kept cli (kept (includePublic (flags w)) images)).
  now rewrite kept_idem.
Qed.

Lemma tagImages_kept images w tr :
  tagImages images w tr
  = tagImages (kept (includePublic (flags w)) images) w tr.
Proof.
  unfold tagImages, bind.
  destruct (newDockerClient w tr) as [[cli|status] tr']; [|reflexivity].
  rewrite !tagLoop_run. now rewrite kept_idem.
Qed.

Lemma pullImages_pulls images w ref :
  In (ImagePull ref) (trace (pullImages images) w) ->
  exists image, In image (kept (includePublic (flags w)) images)
                /\ ref = ImageName image.
Proof.
  unfold trace, pullImages, newDockerClient. run_step.
  destruct (newEnvClientErr w); simpl.
  - intros [H|[H|[]]]; discriminate.
  - intros H. apply pullLoop_pulls in H.
    destruct H as [[H|[]]|H]; [discriminate | exact H].
Qed.

Lemma tagImages_tags images w source target :
  In (ImageTag source target) (trace (tagImages images) w) ->
  exists image, In image (kept (includePublic (flags w)) images)
                /\ source = ImageName image
                /\ target = ImageNameNoRegistry image.
Proof.
  unfold trace. destruct (newEnvClientErr w) as [e|] eqn:E.
  - rewrite (tagImages_client_fails _ _ _ e E). simpl.
    intros [H|[H|[]]]; discriminate.
  - rewrite (tagImages_client_ok _ _ _ E). simpl.
    intros [H|H]; [discriminate|].
    apply in_flat_map in H. destruct H as [image [Hin H]].
    exists image. split; [exact Hin|].
    simpl in H. destruct H as [H|[H|[]]]; [discriminate|].
    injection H. auto.
Qed.

(** C2.  With the flag off, no stage refers to a public image:
    the pull stage, the tag stage and the resolver behave as on the
    manifest without its public images, and every pull and tag call is
    for a private image of the manifest.  With the flag on, a public
    image is processed by every stage that reaches it: the resolver
    selects every root summary carrying its local name, the tag stage
    tags it once the client exists, and the pull stage pulls it once the
    client exists and no pull of an earlier image has failed. *)
Theorem public_filter_in_stages (w : World) (images : list Image) :
  (includePublic (flags w) = false ->
     (forall tr, pullImages images w tr
                 = pullImages (private_only images) w tr)
     /\ (forall tr, tagImages images w tr
                    = tagImages (private_only images) w tr)
     /\ (forall sums, findImageIds (includePublic (flags w)) images sums
                      = findImageIds (includePublic (flags w))
                                     (private_only images) sums)
     /\ (forall ref, In (ImagePull ref) (trace (pullImages images) w) ->
           exists image, In image images /\ Public image = false
                         /\ ref = ImageName image)
     /\ (forall source target,
           In (ImageTag source target) (trace (tagImages images) w) ->
           exists image, In image images /\ Public image = false
                         /\ source = ImageName image
                         /\ target = ImageNameNoRegistry image))
  /\ (includePublic (flags w) = true ->
      forall pre image post,
        images = (pre ++ image :: post)%list ->
        Public image = true ->
        (newEnvClientErr w = None ->
         (forall earlier, In earlier pre ->
                          imagePullErr w (ImageName earlier) = None) ->
         In (ImagePull (ImageName image)) (trace (pullImages images) w))
        /\ (newEnvClientErr w = None ->
            In (ImageTag (ImageName image) (ImageNameNoRegistry image))
               (trace (tagImages images) w))
        /\ (forall sums s,
              In s sums -> ParentID s = EmptyString ->
              In (ImageNameNoRegistry image) (RepoTags s) ->
              In (ID s) (findImageIds (includePublic (flags w)) images sums))).
Proof.
  split; intros Hflag.
  - repeat split.
    + intros tr. rewrite pullImages_kept, Hflag. now rewrite kept_false.
    + intros tr. rewrite tagImages_kept, Hflag. now rewrite kept_false.
    + intros sums. rewrite Hflag. apply findImageIds_private_only.
    + intros ref H. apply pullImages_pulls in H.
      destruct H as [image [Hin E]]. rewrite Hflag in Hin.
      apply kept_private in Hin. destruct Hin as [Hin Hp].
      exists image. repeat split; auto.
      destruct (Public image); [exfalso; apply Hp; auto | reflexivity].
    + intros source target H. apply tagImages_tags in H.
      destruct H as [image [Hin [E1 E2]]]. rewrite Hflag in Hin.
      apply kept_private in Hin. destruct Hin as [Hin Hp].
      exists image. repeat split; auto.
      destruct (Public image); [exfalso; apply Hp; auto | reflexivity].
  - intros pre image post Himages Hpublic. subst images. repeat split.
    + intros Hcli Hpre. unfold trace.
      rewrite (pullImages_client_ok _ _ _ Hcli).
      rewrite pullLoop_prefix.
      2:{ intros i Hi. apply kept_private in Hi. apply Hpre. tauto. }
      simpl. run_step. rewrite Hflag, andb_false_r.
      destruct (imagePullErr w (ImageName image)).
      * simpl. repeat (rewrite in_app_iff; simpl). auto 10.
      * match goal with
        | |- context [pullLoop DockerClient post w ?t] =>
            destruct (pullLoop_extends DockerClient post w t) as [more E]
        end.
        rewrite E. repeat (rewrite in_app_iff; simpl). auto 10.
    + intros Hcli. unfold trace. rewrite (tagImages_client_ok _ _ _ Hcli).
      rewrite Hflag, kept_true. simpl. right.
      apply in_flat_map. exists image. split.
      * apply in_or_app. right. left. reflexivity.
      * simpl. auto.
    + intros sums s Hin Hroot Htag.
      apply findImageIds_member. exists s. repeat split; auto.
      exists image. repeat split; auto.
      * apply in_or_app. right. left. reflexivity.
      * rewrite Hflag. intros [_ D]. discriminate.
Qed.

Lemma public_filter_in_stages_witness :
  let off := calm (readme_flags false) private_first readme_summaries in
  let on := calm (readme_flags true) private_first readme_summaries in
  ((forall tr, pullImages private_first off tr = pullImages [pause] off tr)
   /\ (forall tr, tagImages private_first off tr = tagImages [pause] off tr)
   /\ findImageIds false private_first readme_summaries
      = findImageIds false [pause] readme_summaries)
  /\ In (ImagePull "java:8") (trace (pullImages private_first) on)
  /\ In (ImageTag "java:8" "java:8") (trace (tagImages private_first) on)
  /\ In "sha256:java" (findImageIds true private_first readme_summaries).
Proof.
  intros off on.
  destruct (public_filter_in_stages off private_first) as [Hoff _].
  destruct (public_filter_in_stages on private_first) as [_ Hon].
  specialize (Hoff eq_refl).
  specialize (Hon eq_refl [pause] java [] eq_refl eq_refl).
  destruct Hoff as [Hpull [Htag [Hres _]]].
  destruct Hon as [Hp [Ht Hr]].
  split; [split; [exact Hpull | split; [exact Htag | exact (Hres _)]]|].
  split.
  { apply Hp; [reflexivity|].
    intros earlier [E|[]]. subst earlier. reflexivity. }
  split; [apply Ht; reflexivity|].
  apply (Hr readme_summaries java_summary); simpl; auto.
Defined.

(** ** What the daemon answers to a tag call plays no part *)

Module TagAnswer.

Ltac by_cases :=
  run_step;
  repeat (match goal with
          | |- context [match ?x with _ => _ end] =>
              lazymatch x with
              | context [match _ with _ => _ end] => fail
              | _ => destruct x; run_step
              end
          end);
  try reflexivity.

Lemma pullLoop_same answer cli images w tr :
  pullLoop cli images (with_tag_answer answer w) tr
  = pullLoop cli images w tr.
Proof.
  revert tr. induction images as [|image rest IH]; intros tr;
    [reflexivity|].
  rewrite !pullLoop_cons. cbn [flags imagePullErr with_tag_answer].
  destruct (Public image && negb (includePublic (flags w))); [apply IH|].
  destruct (imagePullErr w (ImageName image)); [reflexivity|apply IH].
Qed.

Lemma tagLoop_same answer cli images w tr :
  tagLoop cli images (with_tag_answer answer w) tr
  = tagLoop cli images w tr.
Proof. now rewrite !tagLoop_run. Qed.

Lemma pullImages_same answer images w tr :
  pullImages images (with_tag_answer answer w) tr = pullImages images w tr.
Proof.
  unfold pullImages, newDockerClient. run_step.
  destruct (newEnvClientErr w); [reflexivity | apply pullLoop_same].
Qed.

Lemma tagImages_same answer images w tr :
  tagImages images (with_tag_answer answer w) tr = tagImages images w tr.
Proof.
  unfold tagImages, newDockerClient. run_step.
  destruct (newEnvClientErr w); [reflexivity | apply tagLoop_same].
Qed.

Lemma validate_same answer w tr :
  validate (with_tag_answer answer w) tr = validate w tr.
Proof. unfold validate, os_Stat. by_cases. Qed.

Lemma loadDescriptor_same answer w tr :
  loadDescriptor (with_tag_answer answer w) tr = loadDescriptor w tr.
Proof. unfold loadDescriptor, toml_LoadFile. by_cases. Qed.

Lemma saveImages_same answer images w tr :
  saveImages images (with_tag_answer answer w) tr = saveImages images w tr.
Proof.
  unfold saveImages, newDockerClient, cli_ImageList, cli_ImageSave,
    os_Create, gzip_NewWriterLevel, io_Copy, readerCloser_Close,
    gzipWriter_Close.
  by_cases.
Qed.

Lemma generateScript_same answer d w tr :
  generateScript d (with_tag_answer answer w) tr = generateScript d w tr.
Proof.
  unfold generateScript, os_OpenFile, template_Execute, file_Close.
  unfold log_Printf, log_Fatal, bind, ask, ret, emit.
  cbn [flags outputFile openFileErr writeErr with_tag_answer fst snd].
  destruct (openFileErr w loadScriptName); cbn [fst snd];
    destruct (execNodes loadScriptTemplate
                (scriptData (outputFile (flags w)) d)); try reflexivity.
  cbn [writeErr with_tag_answer].
  destruct (writeErr w); reflexivity.
Qed.

Lemma main_same answer w tr :
  main (with_tag_answer answer w) tr = main w tr.
Proof.
  unfold main, bind.
  rewrite validate_same. destruct (validate w tr) as [[[]|st] tr1]; [|reflexivity].
  rewrite loadDescriptor_same.
  destruct (loadDescriptor w tr1) as [[d|st] tr2]; [|reflexivity].
  rewrite pullImages_same.
  destruct (pullImages (Images d) w tr2) as [[[]|st] tr3]; [|reflexivity].
  rewrite tagImages_same.
  destruct (tagImages (Images d) w tr3) as [[[]|st] tr4]; [|reflexivity].
  rewrite saveImages_same.
  destruct (saveImages (Images d) w tr4) as [[[]|st] tr5]; [|reflexivity].
  apply generateScript_same.
Qed.

End TagAnswer.

(** C9.  An error of the daemon's tag operation never surfaces.  Whatever
    the daemon answers to the tag calls, the tag loop returns to its
    caller after logging and tagging every kept image in turn (its only
    log lines are the announcements made before each call), the tag stage
    ends as with any other answer, and so does the whole run. *)
Theorem tag_errors_never_surface (w : World) (images : list Image)
    (answer : string -> string -> option string) :
  (forall cli tr,
     tagLoop cli images (with_tag_answer answer w) tr
     = (Returned tt,
        (tr ++ flat_map tagEvents
                 (kept (includePublic (flags w)) images))%list))
  /\ (forall tr, tagImages images (with_tag_answer answer w) tr
                 = tagImages images w tr)
  /\ (forall tr, main (with_tag_answer answer w) tr = main w tr).
Proof.
  split; [|split].
  - intros cli tr. now rewrite tagLoop_run.
  - intros tr. apply TagAnswer.tagImages_same.
  - intros tr. apply TagAnswer.main_same.
Qed.

(** ** The load script *)

Module ScriptFacts.

Lemma append_assoc (a b c : string) : (a ++ b) ++ c = a ++ (b ++ c).
Proof. induction a as [|ch a IH]; simpl; [reflexivity | now rewrite IH]. Qed.

Lemma append_nil_r (a : string) : a ++ EmptyString = a.
Proof. induction a as [|ch a IH]; simpl; [reflexivity | now rewrite IH]. Qed.

(** A range runs its body once per element, in order. *)
Lemma execNode_range chain body dot :
  execNode (RangeNode chain body) dot
  = match evalField chain dot with
    | Some (VSlice elems) => execEach body elems
    | _ => None
    end.
Proof.
  simpl. destruct (evalField chain dot) as [[s|b|elems|fields]|];
    try reflexivity.
  induction elems as [|e rest IH]; [reflexivity|].
  simpl. rewrite IH. f_equal.
  clear. induction body as [|n ns IH]; [reflexivity|].
  simpl. now rewrite IH.
Qed.

Lemma execNodes_tagBody image :
  execNodes tagBody (valueOfImage image) = Some (tagBlock image).
Proof.
  unfold tagBlock, tagCommand, ImageNameNoRegistry. simpl.
  repeat (rewrite ?append_assoc, ?append_nil_r; simpl). reflexivity.
Qed.

Lemma execNodes_pushBody image :
  execNodes pushBody (valueOfImage image) = Some (pushBlock image).
Proof.
  unfold pushBlock, pushCommand, ImageNameNoRegistry. simpl.
  repeat (rewrite ?append_assoc, ?append_nil_r; simpl). reflexivity.
Qed.

Lemma execEach_tagBody images :
  execEach tagBody (map valueOfImage images)
  = Some (joined (map tagBlock images)).
Proof.
  induction images as [|image rest IH]; [reflexivity|].
  cbn [map execEach]. rewrite IH, execNodes_tagBody. reflexivity.
Qed.

Lemma execEach_pushBody images :
  execEach pushBody (map valueOfImage images)
  = Some (joined (map pushBlock images)).
Proof.
  induction images as [|image rest IH]; [reflexivity|].
  cbn [map execEach]. rewrite IH, execNodes_pushBody. reflexivity.
Qed.

(** Executing the template never fails, and gives the described text. *)
Lemma renderScript_text outputFile d :
  renderScript outputFile d = Some (scriptText outputFile (Images d)).
Proof.
  unfold renderScript, loadScriptTemplate, scriptText.
  cbn [execNodes]. rewrite !execNode_range.
  cbn [execNode evalField scriptData valueOfDescriptor lookup String.eqb
       Ascii.eqb Bool.eqb printValue].
  rewrite execEach_tagBody, execEach_pushBody.
  cbn [cat]. now rewrite append_nil_r.
Qed.

End ScriptFacts.
Import ScriptFacts.

Module LineFacts.

Lemma lines_cons (s : string) : exists l ls, lines s = l :: ls.
Proof.
  induction s as [|c s [l [ls E]]]; simpl; [eauto|].
  rewrite E. destruct (Ascii.eqb c "010"%char); eauto.
Qed.

Lemma lines_app_nl (s t : string) :
  lines (s ++ String "010"%char t) = (lines s ++ lines t)%list.
Proof.
  induction s as [|c s IH]; [reflexivity|].
  simpl. destruct (Ascii.eqb c "010"%char).
  - now rewrite IH.
  - rewrite IH. destruct (lines_cons s) as [l [ls E]].
    rewrite E. reflexivity.
Qed.

Lemma lines_one_line (s : string) : one_line s = true -> lines s = [s].
Proof.
  induction s as [|c s IH]; [reflexivity|].
  simpl. destruct (Ascii.eqb c "010"%char); simpl; [discriminate|].
  intros H. now rewrite (IH H).
Qed.

Lemma one_line_app (a b : string) :
  one_line (a ++ b) = one_line a && one_line b.
Proof.
  induction a as [|c a IH]; [reflexivity|].
  simpl. rewrite IH. now rewrite andb_assoc.
Qed.

Lemma lines_unlines (ls : list string) (rest : string) :
  forallb one_line ls = true ->
  lines (unlines ls rest) = (ls ++ lines rest)%list.
Proof.
  induction ls as [|l ls IH]; [reflexivity|].
  simpl. intros H. apply andb_true_iff in H. destruct H as [Hl Hls].
  unfold nl. simpl. rewrite lines_app_nl, (lines_one_line l Hl).
  simpl. f_equal. apply IH. exact Hls.
Qed.

Lemma unlines_app (a b : list string) (rest : string) :
  unlines (a ++ b) rest = unlines a (unlines b rest).
Proof. unfold unlines. now rewrite fold_right_app. Qed.

Lemma unlines_tagLines images rest :
  unlines (flat_map tagLines images) rest
  = joined (map tagBlock images) ++ rest.
Proof.
  induction images as [|image images IH]; [reflexivity|].
  cbn [flat_map map joined fold_right]. rewrite unlines_app, IH.
  unfold tagLines, tagBlock, unlines. simpl.
  repeat (rewrite ?append_assoc; simpl). reflexivity.
Qed.

Lemma unlines_pushLines images rest :
  unlines (flat_map pushLines images) rest
  = joined (map pushBlock images) ++ rest.
Proof.
  induction images as [|image images IH]; [reflexivity|].
  cbn [flat_map map joined fold_right]. rewrite unlines_app, IH.
  unfold pushLines, pushBlock, unlines. simpl.
  repeat (rewrite ?append_assoc; simpl). reflexivity.
Qed.

(** The script is its lines, each ended by a line feed. *)
Lemma scriptText_unlines outputFile images :
  scriptText outputFile images
  = unlines (scriptLines outputFile images) EmptyString.
Proof.
  unfold scriptLines. rewrite !unlines_app.
  rewrite unlines_tagLines, unlines_pushLines.
  unfold scriptText, scriptHead, scriptLoad, scriptGap, scriptTail,
    headLines, unlines.
  simpl. repeat (rewrite ?append_assoc; simpl). reflexivity.
Qed.

Lemma plain_name image :
  plain image = true -> one_line (ImageNameNoRegistry image) = true.
Proof.
  unfold plain, ImageNameNoRegistry. intros H.
  apply andb_true_iff in H. destruct H as [Hr Ht].
  rewrite one_line_app. simpl. now rewrite Hr, Ht.
Qed.

Lemma one_line_scriptLines outputFile images :
  one_line outputFile = true ->
  forallb plain images = true ->
  forallb one_line (scriptLines outputFile images) = true.
Proof.
  intros Hout Himages. unfold scriptLines.
  rewrite !forallb_app. repeat (apply andb_true_iff; split);
    try reflexivity.
  - exact Hout.
  - induction images as [|image images IH]; [reflexivity|].
    simpl in Himages. apply andb_true_iff in Himages.
    destruct Himages as [Hi Hrest]. apply plain_name in Hi.
    cbn [flat_map]. rewrite forallb_app, (IH Hrest), andb_true_r.
    unfold tagLines, tagCommand. cbn [forallb].
    rewrite !one_line_app, Hi. reflexivity.
  - induction images as [|image images IH]; [reflexivity|].
    simpl in Himages. apply andb_true_iff in Himages.
    destruct Himages as [Hi Hrest]. apply plain_name in Hi.
    cbn [flat_map]. rewrite forallb_app, (IH Hrest), andb_true_r.
    unfold pushLines, pushCommand. cbn [forallb].
    rewrite !one_line_app, Hi. reflexivity.
Qed.

Lemma docker_tagLines images :
  filter (String.prefix "docker ") (flat_map tagLines images)
  = map tagCommand images.
Proof.
  induction images as [|image images IH]; [reflexivity|].
  cbn [flat_map map]. rewrite filter_app, IH. reflexivity.
Qed.

Lemma docker_pushLines images :
  filter (String.prefix "docker ") (flat_map pushLines images)
  = map pushCommand images.
Proof.
  induction images as [|image images IH]; [reflexivity|].
  cbn [flat_map map]. rewrite filter_app, IH. reflexivity.
Qed.

(** The docker commands of the script: the load, then one tag per image,
    then one push per image. *)
Lemma commands_scriptText outputFile images :
  one_line outputFile = true ->
  forallb plain images = true ->
  commands "docker " (scriptText outputFile images)
  = ("docker load < ${imageFile}"
      :: map tagCommand images ++ map pushCommand images)%list.
Proof.
  intros Hout Himages. unfold commands.
  rewrite scriptText_unlines, lines_unlines
    by now apply one_line_scriptLines.
  unfold scriptLines. rewrite !filter_app.
  rewrite docker_tagLines, docker_pushLines.
  simpl. now rewrite !app_nil_r.
Qed.

End LineFacts.
Import LineFacts.

(** When the script file opens and takes the write, [generateScript]
    logs, opens, writes the rendered text, closes and returns. *)
Lemma generateScript_run d w tr :
  openFileErr w loadScriptName = None ->
  writeErr w = None ->
  generateScript d w tr
  = (Returned tt,
     (tr ++ [Log ("Writing load script '" ++ loadScriptName ++ "'");
             OpenFile loadScriptName;
             Opened (ScriptFile loadScriptName);
             WriteFile loadScriptName
                       (scriptText (outputFile (flags w)) (Images d));
             Closed (ScriptFile loadScriptName)])%list).
Proof.
  intros Hopen Hwrite.
  unfold generateScript, os_OpenFile, template_Execute, file_Close.
  unfold log_Printf, log_Fatal, bind, ask, ret, emit.
  rewrite Hopen. cbn [fst snd].
  change (execNodes loadScriptTemplate
            (scriptData (outputFile (flags w)) d))
    with (renderScript (outputFile (flags w)) d).
  rewrite renderScript_text, Hwrite.
  now rewrite <- !app_assoc.
Qed.

(** C5.  Whatever the public flags of the images and the public-inclusion
    flag of the run, the load script is the preamble, then one tag block
    per manifest image, then one push block per manifest image, both in
    manifest order; this is the text [generateScript] writes; and when
    the names hold no line feed, the docker command lines of the script
    are the load, one tag command per manifest image and then one push
    command per manifest image. *)
Theorem load_script_lists_every_image (w : World) (d : Descriptor) :
  renderScript (outputFile (flags w)) d
    = Some (scriptText (outputFile (flags w)) (Images d))
  /\ (openFileErr w loadScriptName = None -> writeErr w = None ->
      forall tr,
        generateScript d w tr
        = (Returned tt,
           (tr ++ [Log ("Writing load script '" ++ loadScriptName ++ "'");
                   OpenFile loadScriptName;
                   Opened (ScriptFile loadScriptName);
                   WriteFile loadScriptName
                             (scriptText (outputFile (flags w)) (Images d));
                   Closed (ScriptFile loadScriptName)])%list))
  /\ (one_line (outputFile (flags w)) = true ->
      forallb plain (Images d) = true ->
      commands "docker " (scriptText (outputFile (flags w)) (Images d))
      = ("docker load < ${imageFile}"
          :: map tagCommand (Images d) ++ map pushCommand (Images d))%list).
Proof.
  split; [apply renderScript_text|]. split.
  - intros Hopen Hwrite tr. now apply generateScript_run.
  - apply commands_scriptText.
Qed.

Lemma load_script_lists_every_image_witness :
  let w := calm (readme_flags false) readme_images readme_summaries in
  let d := mkDescriptor readme_images in
  Public java = true
  /\ includePublic (flags w) = false
  /\ commands "docker " (scriptText "my-images.tgz" readme_images)
     = [ "docker load < ${imageFile}";
         "docker tag java:8 ${repository}/java:8";
         "docker tag google-containers/pause:1.0 ${repository}/google-containers/pause:1.0";
         "docker push ${repository}/java:8";
         "docker push ${repository}/google-containers/pause:1.0" ]
  /\ trace (generateScript d) w
     = [ Log "Writing load script 'load-images.sh'";
         OpenFile "load-images.sh";
         Opened (ScriptFile "load-images.sh");
         WriteFile "load-images.sh" (scriptText "my-images.tgz" readme_images);
         Closed (ScriptFile "load-images.sh") ].
Proof.
  intros w d.
  destruct (load_script_lists_every_image w d) as [_ [Hrun Hcmd]].
  split; [reflexivity|]. split; [reflexivity|]. split.
  - exact (Hcmd eq_refl eq_refl).
  - unfold trace. rewrite (Hrun eq_refl eq_refl []). reflexivity.
Defined.

(** ** One local name for the three stages *)

Lemma tagImages_tags_kept images image w :
  newEnvClientErr w = None ->
  In image images ->
  skipped (includePublic (flags w)) image = false ->
  In (ImageTag (ImageName image) (ImageNameNoRegistry image))
     (trace (tagImages images) w).
Proof.
  intros Hcli Hin Hkept. unfold trace.
  rewrite (tagImages_client_ok _ _ _ Hcli). simpl. right.
  apply in_flat_map. exists image. split.
  - unfold kept. apply filter_In. split; [exact Hin|]. now rewrite Hkept.
  - simpl. auto.
Qed.

(** C10.  The tag stage, the resolver and the load script use one and
    the same local name for an image, [repository:tag] without registry:
    it is the string the template prints in the script's tag command, the
    string the resolver looks for among a summary's repo tags, and the
    target of every tag call of the tag stage; so a root summary that
    carries the target of the tag call made for an image is selected by
    the resolver. *)
Theorem local_name_shared (w : World) (images : list Image) (image : Image) :
  let name := ImageNameNoRegistry image in
  name = Repository image ++ ":" ++ Tag image
  /\ execNodes tagBody (valueOfImage image)
     = Some (nl ++ "echo " ++ dq ++ "Tagging " ++ name
             ++ " -> ${repository}/" ++ name ++ dq ++ nl
             ++ "docker tag " ++ name ++ " ${repository}/" ++ name ++ nl)
  /\ (forall public s acc,
        scanImages public [image] s acc
        = if negb (skipped public image) && containsTag name (RepoTags s)
          then (acc ++ [ID s])%list else acc)
  /\ (forall source target,
        In (ImageTag source target) (trace (tagImages images) w) ->
        exists i, In i images /\ source = ImageName i
                  /\ target = ImageNameNoRegistry i)
  /\ (In image images ->
      skipped (includePublic (flags w)) image = false ->
      (newEnvClientErr w = None ->
       In (ImageTag (ImageName image) name) (trace (tagImages images) w))
      /\ (forall sums s,
            In s sums -> ParentID s = EmptyString ->
            In name (RepoTags s) ->
            In (ID s) (findImageIds (includePublic (flags w)) images sums))).
Proof.
  intros name. split; [reflexivity|]. split.
  { rewrite execNodes_tagBody. unfold tagBlock, tagCommand. subst name.
    repeat (rewrite ?append_assoc; simpl). reflexivity. }
  split; [|split].
  - intros public s acc. simpl.
    destruct (skipped public image); [reflexivity|]. simpl.
    now destruct (containsTag _ _).
  - intros source target H. apply tagImages_tags in H.
    destruct H as [i [Hin [E1 E2]]]. apply kept_private in Hin.
    exists i. tauto.
  - intros Hin Hkept. split.
    + intros Hcli. now apply tagImages_tags_kept.
    + intros sums s Hs Hroot Htag. apply findImageIds_member.
      exists s. repeat split; auto. exists image. repeat split; auto.
      now apply skipped_false.
Qed.

Lemma local_name_shared_witness :
  let w := calm (readme_flags false) readme_images readme_summaries in
  ImageNameNoRegistry pause = "google-containers/pause:1.0"
  /\ In (ImageTag "gcr.io/google-containers/pause:1.0"
                  "google-containers/pause:1.0")
        (trace (tagImages readme_images) w)
  /\ In "sha256:pause" (findImageIds false readme_images readme_summaries).
Proof.
  intros w.
  destruct (local_name_shared w readme_images pause)
    as [_ [_ [_ [_ H]]]].
  destruct (H (or_intror (or_introl eq_refl)) eq_refl) as [Htag Hres].
  split; [reflexivity|]. split.
  - apply Htag. reflexivity.
  - apply (Hres readme_summaries pause_summary); simpl; auto.
Defined.

(** ** The manifest loader *)

Module LoaderFacts.

Lemma defaultTag_tag image : Tag (defaultTag image) <> EmptyString.
Proof.
  unfold defaultTag. destruct (String.eqb_spec (Tag image) EmptyString);
    simpl; [discriminate | assumption].
Qed.

Lemma defaultTag_idem image : defaultTag (defaultTag image) = defaultTag image.
Proof.
  unfold defaultTag at 1.
  destruct (String.eqb_spec (Tag (defaultTag image)) EmptyString) as [E|N];
    [|reflexivity].
  now apply defaultTag_tag in E.
Qed.

Lemma defaultTags_idem images :
  defaultTags (defaultTags images) = defaultTags images.
Proof.
  unfold defaultTags. rewrite map_map. apply map_ext.
  intros image. apply defaultTag_idem.
Qed.

Lemma loadDescriptor_run w tree tr :
  tomlLoadFile w (inputFile (flags w)) = inr tree ->
  loadDescriptor w tr
  = (Returned (mkDescriptor (defaultTags (decoded tree))),
     (tr ++ [LoadFile (inputFile (flags w))])%list).
Proof.
  intros H. unfold loadDescriptor, toml_LoadFile. run_step.
  now rewrite H.
Qed.

Lemma main_after_load w tree tr :
  statErr w (inputFile (flags w)) = None ->
  tomlLoadFile w (inputFile (flags w)) = inr tree ->
  main w tr
  = let loaded := defaultTags (decoded tree) in
    bind (pullImages loaded)
         (fun _ => bind (tagImages loaded)
         (fun _ => bind (saveImages loaded)
         (fun _ => generateScript (mkDescriptor loaded))))
      w (tr ++ [Stat (inputFile (flags w)); LoadFile (inputFile (flags w))])%list.
Proof.
  intros Hstat Hload. unfold main.
  unfold bind at 1. unfold validate, os_Stat. run_step. rewrite Hstat.
  rewrite (loadDescriptor_run _ tree _ Hload).
  simpl. now rewrite <- app_assoc.
Qed.

End LoaderFacts.
Import LoaderFacts.

(** C7.  When the manifest loads, the loader returns the decoded entries
    in order with every empty tag replaced by [latest] and nothing else
    changed; no loaded record has an empty tag, so applying the default
    again changes nothing; and [main] hands exactly these records to the
    pull, tag and save stages and to the script generator. *)
Theorem absent_tag_defaults_to_latest (w : World) (tree : Tree) :
  tomlLoadFile w (inputFile (flags w)) = inr tree ->
  let loaded := defaultTags (decoded tree) in
  (forall tr,
     loadDescriptor w tr
     = (Returned (mkDescriptor loaded),
        (tr ++ [LoadFile (inputFile (flags w))])%list))
  /\ (forall n entry,
        nth_error (decoded tree) n = Some entry ->
        Tag entry = EmptyString ->
        nth_error loaded n
        = Some (mkImage (Registry entry) (Repository entry) "latest"
                        (Public entry)))
  /\ (forall n entry,
        nth_error (decoded tree) n = Some entry ->
        Tag entry <> EmptyString ->
        nth_error loaded n = Some entry)
  /\ (forall record, In record loaded -> Tag record <> EmptyString)
  /\ defaultTags loaded = loaded
  /\ (statErr w (inputFile (flags w)) = None ->
      forall tr,
        main w tr
        = bind (pullImages loaded)
               (fun _ => bind (tagImages loaded)
               (fun _ => bind (saveImages loaded)
               (fun _ => generateScript (mkDescriptor loaded))))
            w (tr ++ [Stat (inputFile (flags w));
                      LoadFile (inputFile (flags w))])%list).
Proof.
  intros Hload loaded. repeat split.
  - intros tr. now apply loadDescriptor_run.
  - intros n entry Hn Htag. subst loaded. unfold defaultTags.
    rewrite nth_error_map, Hn. simpl. unfold defaultTag.
    now rewrite Htag.
  - intros n entry Hn Htag. subst loaded. unfold defaultTags.
    rewrite nth_error_map, Hn. simpl. unfold defaultTag.
    destruct (String.eqb_spec (Tag entry) EmptyString);
      [contradiction | reflexivity].
  - intros record Hin. subst loaded. unfold defaultTags in Hin.
    apply in_map_iff in Hin. destruct Hin as [entry [E _]]. subst record.
    apply defaultTag_tag.
  - apply defaultTags_idem.
  - intros Hstat tr. now apply (main_after_load w tree).
Qed.

Lemma absent_tag_defaults_to_latest_witness :
  Tag busybox = EmptyString
  /\ outcome loadDescriptor untagged_world
     = Returned (mkDescriptor [mkImage EmptyString "busybox" "latest" false;
                               pause])
  /\ In (ImagePull "busybox:latest") (trace main untagged_world)
  /\ In (ImageTag "busybox:latest" "busybox:latest")
        (trace main untagged_world).
Proof.
  destruct (absent_tag_defaults_to_latest
              untagged_world (mkTree [busybox; pause] None) eq_refl)
    as [Hrun [_ [_ [_ [_ Hmain]]]]].
  split; [reflexivity|]. split.
  - unfold outcome. rewrite Hrun. reflexivity.
  - unfold trace. rewrite (Hmain eq_refl []).
    split; vm_compute; auto 20.
Defined.

(** ** The archiving stage *)

(** Once the client, the image list, the export stream and the output file
    are there, [saveImages] returns, whatever [io.Copy] answers: it closes
    the export stream and the gzip writer and nothing else. *)
Lemma saveImages_run images w sums tr :
  newEnvClientErr w = None ->
  imageListRes w = inr sums ->
  imageSaveErr w (findImageIds (includePublic (flags w)) images sums) = None ->
  createErr w (outputFile (flags w)) = None ->
  saveImages images w tr
  = (Returned tt,
     (tr ++ [NewEnvClient; ImageList;
             ImageSave (findImageIds (includePublic (flags w)) images sums);
             Opened ExportStream;
             Log ("Writing images to " ++ outputFile (flags w));
             Create (outputFile (flags w));
             Opened (OutFile (outputFile (flags w)));
             Opened GzipWriter; Copy;
             Closed ExportStream; Closed GzipWriter])%list).
Proof.
  intros Hcli Hlist Hsave Hcreate.
  unfold saveImages, newDockerClient, cli_ImageList, cli_ImageSave,
    os_Create, gzip_NewWriterLevel, io_Copy, readerCloser_Close,
    gzipWriter_Close.
  run_step. rewrite Hcli, Hlist. simpl. rewrite Hsave. simpl.
  rewrite Hcreate. simpl. now rewrite <- !app_assoc.
Qed.

(** The two checked steps of [saveImages] end the process. *)
Lemma saveImages_save_error_fatal images w sums e :
  newEnvClientErr w = None ->
  imageListRes w = inr sums ->
  imageSaveErr w (findImageIds (includePublic (flags w)) images sums)
    = Some e ->
  outcome (saveImages images) w = Exited 1.
Proof.
  intros Hcli Hlist Hsave.
  unfold outcome, saveImages, newDockerClient, cli_ImageList, cli_ImageSave.
  run_step. rewrite Hcli, Hlist. simpl. now rewrite Hsave.
Qed.

Lemma saveImages_create_error_fatal images w sums e :
  newEnvClientErr w = None ->
  imageListRes w = inr sums ->
  imageSaveErr w (findImageIds (includePublic (flags w)) images sums) = None ->
  createErr w (outputFile (flags w)) = Some e ->
  outcome (saveImages images) w = Exited 1
  /\ held (trace (saveImages images) w) = [ExportStream].
Proof.
  intros Hcli Hlist Hsave Hcreate.
  unfold outcome, trace, saveImages, newDockerClient, cli_ImageList,
    cli_ImageSave, os_Create.
  run_step. rewrite Hcli, Hlist. simpl. rewrite Hsave. simpl.
  now rewrite Hcreate.
Qed.

(** Whenever [saveImages] returns, the output file is still open and
    the export stream and the gzip writer are closed. *)
Lemma saveImages_returned_holds_file images w :
  outcome (saveImages images) w = Returned tt ->
  held (trace (saveImages images) w) = [OutFile (outputFile (flags w))].
Proof.
  destruct (newEnvClientErr w) as [e|] eqn:Hcli.
  { unfold outcome, saveImages, newDockerClient. run_step. rewrite Hcli.
    discriminate. }
  destruct (imageListRes w) as [e|sums] eqn:Hlist.
  { unfold outcome, saveImages, newDockerClient, cli_ImageList. run_step.
    rewrite Hcli, Hlist. discriminate. }
  destruct (imageSaveErr w (findImageIds (includePublic (flags w))
                                         images sums)) as [e|] eqn:Hsave.
  { now rewrite (saveImages_save_error_fatal images w sums e). }
  destruct (createErr w (outputFile (flags w))) as [e|] eqn:Hcreate.
  { destruct (saveImages_create_error_fatal images w sums e) as [E _];
      auto. now rewrite E. }
  intros _. unfold trace.
  rewrite (saveImages_run images w sums []) by assumption.
  reflexivity.
Qed.

(** C3, on the code: in the README run, and in the same run with a
    failing copy, [saveImages] returns to [main] having closed the export
    stream and the gzip writer, while the output file made by
    [os.Create] is still open: no close of it is ever issued. *)
Theorem saveImages_leaves_output_file_open :
  outcome (saveImages readme_images) readme_world = Returned tt
  /\ trace (saveImages readme_images) readme_world
     = [NewEnvClient; ImageList; ImageSave ["sha256:pause"];
        Opened ExportStream; Log "Writing images to my-images.tgz";
        Create "my-images.tgz"; Opened (OutFile "my-images.tgz");
        Opened GzipWriter; Copy; Closed ExportStream; Closed GzipWriter]
  /\ held (trace (saveImages readme_images) readme_world)
     = [OutFile "my-images.tgz"]
  /\ outcome (saveImages readme_images) broken_copy_world = Returned tt
  /\ held (trace (saveImages readme_images) broken_copy_world)
     = [OutFile "my-images.tgz"].
Proof. repeat split; reflexivity. Qed.

(** C4, on the code: when [io.Copy] fails, [saveImages] does exactly what
    it does when the copy succeeds: it returns to [main] with no
    diagnostic, and the run goes on to write the load script and ends
    normally. *)
Theorem copy_error_is_dropped :
  copyErr broken_copy_world = Some "unexpected EOF"
  /\ saveImages readme_images broken_copy_world []
     = saveImages readme_images readme_world []
  /\ outcome (saveImages readme_images) broken_copy_world = Returned tt
  /\ logs (trace (saveImages readme_images) broken_copy_world)
     = [Log "Writing images to my-images.tgz"]
  /\ outcome main broken_copy_world = Returned tt
  /\ In (WriteFile "load-images.sh"
                   (scriptText "my-images.tgz" readme_images))
        (trace main broken_copy_world).
Proof.
  repeat split; try reflexivity.
  vm_compute. auto 30.
Qed.

(** C8, on the code: for a manifest that is well-formed TOML but does not
    decode into image records, the error of [Unmarshal] is dropped: the
    loader returns an empty descriptor without a diagnostic and the run
    goes on to its normal end. *)
Theorem unmarshal_error_is_dropped :
  tomlLoadFile undecodable_world "satchel.toml"
    = inr (mkTree [] (Some "Can't convert yes(string) to bool"))
  /\ outcome loadDescriptor undecodable_world = Returned (mkDescriptor [])
  /\ trace loadDescriptor undecodable_world = [LoadFile "satchel.toml"]
  /\ outcome main undecodable_world = Returned tt
  /\ logs (trace main undecodable_world)
     = [Log "Writing images to my-images.tgz";
        Log "Writing load script 'load-images.sh'"].
Proof. repeat split; reflexivity. Qed.

(** The two checked steps of the loader end the process. *)
Lemma validate_missing_file_fatal w e :
  statErr w (inputFile (flags w)) = Some e ->
  main w []
  = (Exited 1,
     [Stat (inputFile (flags w));
      Log ("Input file '" ++ inputFile (flags w) ++ "' not found")]).
Proof.
  intros H. unfold main, validate, os_Stat. run_step. now rewrite H.
Qed.

Lemma loadDescriptor_load_error_fatal w e :
  tomlLoadFile w (inputFile (flags w)) = inl e ->
  outcome loadDescriptor w = Exited 1.
Proof.
  intros H. unfold outcome, loadDescriptor, toml_LoadFile. run_step.
  now rewrite H.
Qed.

(** ** The session of the README *)

(** The log of the README run: one image pulled and tagged (the public
    one is left out), the archive and the script written; the archive
    file and the response of the pull are left open. *)
Example readme_session :
  outcome main readme_world = Returned tt
  /\ logs (trace main readme_world)
     = [Log ("Pulling Image gcr.io/google-containers/pause:1.0" ++ nl);
        Log "Tagging Image gcr.io/google-containers/pause:1.0 -> google-containers/pause:1.0";
        Log "Writing images to my-images.tgz";
        Log "Writing load script 'load-images.sh'"]
  /\ held (trace main readme_world)
     = [OutFile "my-images.tgz";
        PullStream "gcr.io/google-containers/pause:1.0"].
Proof. repeat split; reflexivity. Qed.

(** The resolver on the README manifest: with the flag off only the
    private image's root summary is chosen; the layer that carries the
    same tag but has a parent is not. *)
Example readme_resolution :
  findImageIds false readme_images readme_summaries = ["sha256:pause"]
  /\ findImageIds true readme_images readme_summaries
     = ["sha256:java"; "sha256:pause"].
Proof. split; reflexivity. Qed.

(** * Further properties of the code *)

(** ** Names *)

Module NameFacts.

Lemma length_append (a b : string) :
  String.length (a ++ b) = String.length a + String.length b.
Proof. induction a as [|c a IH]; simpl; [reflexivity | now rewrite IH]. Qed.

End NameFacts.

(** X1.  [containsTag] answers true exactly when the tag is a member of
    the list, by equality of strings. *)
Theorem containsTag_membership (t : string) (tags : list string) :
  (containsTag t tags = true <-> In t tags)
  /\ (containsTag t tags = false <-> ~ In t tags).
Proof.
  split; [apply containsTag_In|]. split.
  - intros Hf Hin. apply containsTag_In in Hin. congruence.
  - intros Hn. destruct (containsTag t tags) eqn:E; [|reflexivity].
    exfalso. apply Hn. now apply containsTag_In.
Qed.

(** X2.  The pull name of an image is its local name behind the registry
    and a slash, or the bare local name when the registry is empty; the
    two names are equal exactly when the registry is empty. *)
Theorem ImageName_and_local_name (image : Image) :
  ImageName image
    = (if Registry image =? EmptyString then EmptyString
       else Registry image ++ "/") ++ ImageNameNoRegistry image
  /\ (ImageName image = ImageNameNoRegistry image
      <-> Registry image = EmptyString).
Proof.
  assert (E : ImageName image
              = (if Registry image =? EmptyString then EmptyString
                 else Registry image ++ "/") ++ ImageNameNoRegistry image).
  { unfold ImageName, ImageNameNoRegistry.
    destruct (String.eqb_spec (Registry image) EmptyString) as [R|R]; simpl.
    - now rewrite R.
    - now rewrite append_assoc. }
  split; [exact E|]. rewrite E.
  destruct (String.eqb_spec (Registry image) EmptyString) as [R|R].
  - split; [intros _; exact R | reflexivity].
  - split; [|contradiction]. intros H.
    apply (f_equal String.length) in H.
    rewrite !NameFacts.length_append in H. simpl in H. lia.
Qed.

(** ** More on the resolver *)

Module ResolverMore.

Lemma wanted_members public images images' s :
  (forall image, In image images -> In image images') ->
  wanted public images s = true -> wanted public images' s = true.
Proof.
  intros Hsub H. apply wanted_true in H. apply wanted_true.
  destruct H as [image [Hin H]]. exists image. split; auto.
Qed.

Lemma wanted_same_members public images images' s :
  (forall image, In image images <-> In image images') ->
  wanted public images s = wanted public images' s.
Proof.
  intros Hsame.
  destruct (wanted public images s) eqn:E.
  - symmetry. apply (wanted_members public images images'); auto.
    intros image. apply Hsame.
  - destruct (wanted public images' s) eqn:E'; [|reflexivity].
    rewrite (wanted_members public images' images) in E; auto.
    intros image. apply Hsame.
Qed.

Lemma wanted_all_skipped public images s :
  (forall image, In image images -> skipped public image = true) ->
  wanted public images s = false.
Proof.
  intros Hall. unfold wanted.
  induction images as [|image rest IH]; [reflexivity|].
  simpl. rewrite (Hall image (or_introl eq_refl)). simpl.
  apply IH. intros i Hi. apply Hall. now right.
Qed.

Lemma filter_length (f : ImageSummary -> bool) sums :
  length (filter f sums) <= length sums.
Proof.
  induction sums as [|s rest IH]; simpl; [lia|].
  destruct (f s); simpl; lia.
Qed.

Lemma filter_none (f : ImageSummary -> bool) sums :
  (forall s, f s = false) -> filter f sums = [].
Proof.
  intros H. induction sums as [|s rest IH]; simpl; [reflexivity|].
  now rewrite H.
Qed.

End ResolverMore.

(** X3.  The resolver lists the IDs in the order in which the daemon
    lists the summaries, one per selected summary, whatever the order of
    the manifest; the output is never longer than the summary list. *)
Theorem findImageIds_in_daemon_order (public : bool) (images : list Image)
    (sums : list ImageSummary) :
  findImageIds public images sums
    = map ID (filter (selected public images) sums)
  /\ (forall s,
        selected public images s = true <->
        ParentID s = EmptyString /\
        exists image, In image images
          /\ ~ (Public image = true /\ public = false)
          /\ In (ImageNameNoRegistry image) (RepoTags s))
  /\ length (findImageIds public images sums) <= length sums.
Proof.
  split; [apply findImageIds_filter|]. split.
  - intros s. apply selected_true.
  - rewrite findImageIds_filter, length_map.
    apply ResolverMore.filter_length.
Qed.

(** X4.  Resolving against two summary lists one after the other gives
    the two results one after the other. *)
Theorem findImageIds_app (public : bool) (images : list Image)
    (sums sums' : list ImageSummary) :
  findImageIds public images (sums ++ sums')
  = (findImageIds public images sums
     ++ findImageIds public images sums')%list.
Proof. rewrite !findImageIds_filter, filter_app. apply map_app. Qed.

(** X5.  The order of the manifest and repeated entries play no part in
    the resolution: two manifests with the same entries give the same
    IDs in the same order. *)
Theorem findImageIds_same_entries (public : bool)
    (images images' : list Image) (sums : list ImageSummary) :
  (forall image, In image images <-> In image images') ->
  findImageIds public images sums = findImageIds public images' sums.
Proof.
  intros Hsame. rewrite !findImageIds_filter. f_equal.
  apply filter_ext. intros s. unfold selected.
  now rewrite (ResolverMore.wanted_same_members public images images' s).
Qed.

Lemma findImageIds_same_entries_witness :
  findImageIds true [java; pause] readme_summaries
  = findImageIds true [pause; java; pause] readme_summaries.
Proof.
  apply (findImageIds_same_entries true [java; pause] [pause; java; pause]).
  intros image. simpl. tauto.
Defined.

(** X6.  Adding entries to the manifest, or switching the
    public-inclusion flag on, never removes an ID from the result. *)
Theorem findImageIds_monotone (images images' : list Image)
    (sums : list ImageSummary) (public : bool) (id : string) :
  (forall image, In image images -> In image images') ->
  In id (findImageIds public images sums) ->
  In id (findImageIds public images' sums)
  /\ In id (findImageIds true images' sums).
Proof.
  intros Hsub Hin. apply findImageIds_member in Hin.
  destruct Hin as [s [Hs [E [Hroot [image [Hi [Hp Ht]]]]]]].
  split; apply findImageIds_member; exists s; repeat split; auto;
    exists image; repeat split; auto.
  intros [_ D]. discriminate.
Qed.

Lemma findImageIds_monotone_witness :
  In "sha256:pause" (findImageIds false readme_images readme_summaries)
  /\ In "sha256:pause" (findImageIds true readme_images readme_summaries).
Proof.
  apply (findImageIds_monotone [pause] readme_images readme_summaries false).
  - intros image [E|[]]. subst image. right. left. reflexivity.
  - left. reflexivity.
Defined.

(** X7.  Nothing is resolved from an empty manifest, from an empty
    summary list, or, with the flag off, from a manifest of public
    images only. *)
Theorem findImageIds_nothing_to_resolve (public : bool)
    (images : list Image) (sums : list ImageSummary) :
  findImageIds public [] sums = []
  /\ findImageIds public images [] = []
  /\ ((forall image, In image images -> Public image = true) ->
      findImageIds false images sums = []).
Proof.
  split; [|split].
  - rewrite findImageIds_filter.
    rewrite ResolverMore.filter_none; [reflexivity|].
    intros s. unfold selected. simpl. apply andb_false_r.
  - reflexivity.
  - intros Hall. rewrite findImageIds_filter.
    rewrite ResolverMore.filter_none; [reflexivity|].
    intros s. unfold selected.
    rewrite ResolverMore.wanted_all_skipped; [apply andb_false_r|].
    intros image Hin. unfold skipped. now rewrite (Hall image Hin).
Qed.

Lemma findImageIds_nothing_to_resolve_witness :
  findImageIds false [java; java] readme_summaries = [].
Proof.
  apply (findImageIds_nothing_to_resolve false [java; java] readme_summaries).
  intros image [E|[E|[]]]; subst image; reflexivity.
Defined.

(** ** More on the pull stage and on the client *)

Module PullMore.

Lemma pullLoop_all_ok cli images w tr :
  (forall image, In image (kept (includePublic (flags w)) images) ->
                 imagePullErr w (ImageName image) = None) ->
  pullLoop cli images w tr
  = (Returned tt,
     (tr ++ flat_map pullEvents (kept (includePublic (flags w)) images))%list).
Proof.
  intros Hok.
  rewrite <- (app_nil_r images) at 1.
  now rewrite (pullLoop_prefix cli images [] w tr Hok).
Qed.

Lemma pullLoop_first_failure cli pre image post w tr e :
  (forall earlier, In earlier (kept (includePublic (flags w)) pre) ->
                   imagePullErr w (ImageName earlier) = None) ->
  skipped (includePublic (flags w)) image = false ->
  imagePullErr w (ImageName image) = Some e ->
  pullLoop cli (pre ++ image :: post)%list w tr
  = (Exited 1,
     (tr ++ flat_map pullEvents (kept (includePublic (flags w)) pre)
         ++ pullAttempt image ++ [Log e])%list).
Proof.
  intros Hpre Hkept Hfail.
  rewrite (pullLoop_prefix cli pre (image :: post) w tr Hpre).
  rewrite pullLoop_cons. unfold skipped in Hkept. rewrite Hkept, Hfail.
  now rewrite <- !app_assoc.
Qed.

Lemma pullImages_run_ok images w tr :
  newEnvClientErr w = None ->
  (forall image, In image (kept (includePublic (flags w)) images) ->
                 imagePullErr w (ImageName image) = None) ->
  pullImages images w tr
  = (Returned tt,
     (tr ++ NewEnvClient
         :: flat_map pullEvents (kept (includePublic (flags w)) images))%list).
Proof.
  intros Hcli Hok. rewrite (pullImages_client_ok _ _ _ Hcli).
  rewrite (pullLoop_all_ok _ _ _ _ Hok).
  now rewrite <- app_assoc.
Qed.

Lemma pullImages_run_fail pre image post w tr e :
  newEnvClientErr w = None ->
  (forall earlier, In earlier (kept (includePublic (flags w)) pre) ->
                   imagePullErr w (ImageName earlier) = None) ->
  skipped (includePublic (flags w)) image = false ->
  imagePullErr w (ImageName image) = Some e ->
  pullImages (pre ++ image :: post)%list w tr
  = (Exited 1,
     (tr ++ NewEnvClient
         :: flat_map pullEvents (kept (includePublic (flags w)) pre)
         ++ pullAttempt image ++ [Log e])%list).
Proof.
  intros Hcli Hpre Hkept Hfail. rewrite (pullImages_client_ok _ _ _ Hcli).
  rewrite (pullLoop_first_failure _ _ _ _ _ _ e Hpre Hkept Hfail).
  now rewrite <- app_assoc.
Qed.

End PullMore.

(** X8.  When the client exists and every pull succeeds, the pull stage
    returns after logging and pulling each kept image once, in manifest
    order, by its name with registry; the response reader of each pull is
    left open. *)
Theorem pullImages_all_pulled (w : World) (images : list Image)
    (tr : list Event) :
  newEnvClientErr w = None ->
  (forall image, In image (kept (includePublic (flags w)) images) ->
                 imagePullErr w (ImageName image) = None) ->
  pullImages images w tr
  = (Returned tt,
     (tr ++ NewEnvClient
         :: flat_map pullEvents (kept (includePublic (flags w)) images))%list).
Proof. apply PullMore.pullImages_run_ok. Qed.

Lemma pullImages_all_pulled_witness :
  pullImages readme_images
             (calm (readme_flags true) readme_images readme_summaries) []
  = (Returned tt,
     [NewEnvClient;
      Log ("Pulling Image java:8" ++ nl); ImagePull "java:8";
      Opened (PullStream "java:8");
      Log ("Pulling Image gcr.io/google-containers/pause:1.0" ++ nl);
      ImagePull "gcr.io/google-containers/pause:1.0";
      Opened (PullStream "gcr.io/google-containers/pause:1.0")]).
Proof.
  apply (pullImages_all_pulled
           (calm (readme_flags true) readme_images readme_summaries)
           readme_images []).
  - reflexivity.
  - intros image _. reflexivity.
Defined.

(** X9.  The pull stage stops at the first pull that fails: it has pulled
    the kept images before it, logs the error of the failed pull and ends
    the process with status 1; whatever follows in the manifest is never
    looked at. *)
Theorem pullImages_fails_fast (w : World) (pre post : list Image)
    (image : Image) (tr : list Event) (e : string) :
  newEnvClientErr w = None ->
  (forall earlier, In earlier (kept (includePublic (flags w)) pre) ->
                   imagePullErr w (ImageName earlier) = None) ->
  skipped (includePublic (flags w)) image = false ->
  imagePullErr w (ImageName image) = Some e ->
  pullImages (pre ++ image :: post)%list w tr
  = (Exited 1,
     (tr ++ NewEnvClient
         :: flat_map pullEvents (kept (includePublic (flags w)) pre)
         ++ pullAttempt image ++ [Log e])%list).
Proof. apply PullMore.pullImages_run_fail. Qed.

Lemma pullImages_fails_fast_witness :
  pullImages [java; pause; busybox] second_pull_refused []
  = (Exited 1,
     [NewEnvClient;
      Log ("Pulling Image java:8" ++ nl); ImagePull "java:8";
      Opened (PullStream "java:8");
      Log ("Pulling Image gcr.io/google-containers/pause:1.0" ++ nl);
      ImagePull "gcr.io/google-containers/pause:1.0";
      Log "pull access denied"]).
Proof.
  apply (pullImages_fails_fast second_pull_refused [java] [busybox] pause []
                               "pull access denied").
  - reflexivity.
  - intros earlier [E|[]]. subst earlier. reflexivity.
  - reflexivity.
  - reflexivity.
Defined.

(** X10.  When the docker client cannot be made, each of the three stages
    that need it logs the error and ends the process with status 1
    before any call to the daemon. *)
Theorem stages_need_the_client (w : World) (images : list Image)
    (tr : list Event) (e : string) :
  newEnvClientErr w = Some e ->
  pullImages images w tr = (Exited 1, (tr ++ [NewEnvClient; Log e])%list)
  /\ tagImages images w tr = (Exited 1, (tr ++ [NewEnvClient; Log e])%list)
  /\ saveImages images w tr = (Exited 1, (tr ++ [NewEnvClient; Log e])%list).
Proof.
  intros H. split; [|split].
  - unfold pullImages, newDockerClient. run_step. rewrite H.
    now rewrite <- app_assoc.
  - now apply tagImages_client_fails.
  - unfold saveImages, newDockerClient. run_step. rewrite H.
    now rewrite <- app_assoc.
Qed.

Lemma stages_need_the_client_witness :
  pullImages readme_images no_client []
    = (Exited 1, [NewEnvClient; Log "unable to parse docker host"])
  /\ tagImages readme_images no_client []
    = (Exited 1, [NewEnvClient; Log "unable to parse docker host"])
  /\ saveImages readme_images no_client []
    = (Exited 1, [NewEnvClient; Log "unable to parse docker host"]).
Proof.
  exact (stages_need_the_client no_client readme_images []
                                "unable to parse docker host" eq_refl).
Defined.

(** ** The whole run *)

Module MainFacts.




(** The events of a complete run over the loaded images. *)
Lemma stages_run w loaded sums tr :
  newEnvClientErr w = None ->
  (forall image, In image (kept (includePublic (flags w)) loaded) ->
                 imagePullErr w (ImageName image) = None) ->
  imageListRes w = inr sums ->
  imageSaveErr w (findImageIds (includePublic (flags w)) loaded sums) = None ->
  createErr w (outputFile (flags w)) = None ->
  openFileErr w loadScriptName = None ->
  writeErr w = None ->
  bind (pullImages loaded)
       (fun _ => bind (tagImages loaded)
       (fun _ => bind (saveImages loaded)
       (fun _ => generateScript (mkDescriptor loaded)))) w tr
  = (Returned tt,
     (tr
      ++ (NewEnvClient
            :: flat_map pullEvents (kept (includePublic (flags w)) loaded))
      ++ (NewEnvClient
            :: flat_map tagEvents (kept (includePublic (flags w)) loaded))
      ++ [NewEnvClient; ImageList;
          ImageSave (findImageIds (includePublic (flags w)) loaded sums);
          Opened ExportStream;
          Log ("Writing images to " ++ outputFile (flags w));
          Create (outputFile (flags w));
          Opened (OutFile (outputFile (flags w)));
          Opened GzipWriter; Copy;
          Closed ExportStream; Closed GzipWriter]
      ++ [Log ("Writing load script '" ++ loadScriptName ++ "'");
          OpenFile loadScriptName;
          Opened (ScriptFile loadScriptName);
          WriteFile loadScriptName
                    (scriptText (outputFile (flags w)) loaded);
          Closed (ScriptFile loadScriptName)])%list).
Proof.
  intros Hcli Hpull Hlist Hsave Hcreate Hopen Hwrite.
  unfold bind at 1. rewrite (PullMore.pullImages_run_ok _ _ _ Hcli Hpull).
  unfold bind at 1. rewrite (tagImages_client_ok _ _ _ Hcli).
  unfold bind at 1.
  rewrite (saveImages_run loaded w sums _ Hcli Hlist Hsave Hcreate).
  rewrite (generateScript_run _ _ _ Hopen Hwrite). simpl.
  now rewrite <- !app_assoc.
Qed.

End MainFacts.

(** X11.  Without a readable manifest the run ends at once with status 1:
    when the input file is missing, after the one log line and before the
    file is parsed; when it does not parse, after the log line that
    carries the parser's error; in both cases before the daemon is
    contacted and before any file is written. *)
Theorem main_needs_the_manifest (w : World) (tr : list Event) (e : string) :
  (statErr w (inputFile (flags w)) = Some e ->
   main w tr
   = (Exited 1,
      (tr ++ [Stat (inputFile (flags w));
              Log ("Input file '" ++ inputFile (flags w)
                   ++ "' not found")])%list))
  /\ (statErr w (inputFile (flags w)) = None ->
      tomlLoadFile w (inputFile (flags w)) = inl e ->
      main w tr
      = (Exited 1,
         (tr ++ [Stat (inputFile (flags w));
                 LoadFile (inputFile (flags w));
                 Log ("Error Loading File " ++ inputFile (flags w)
                      ++ ": " ++ e)])%list)).
Proof.
  split.
  - intros H. unfold main, validate, os_Stat. run_step. rewrite H.
    now rewrite <- app_assoc.
  - intros Hstat Hload.
    unfold main, validate, os_Stat, loadDescriptor, toml_LoadFile.
    run_step. rewrite Hstat. simpl. rewrite Hload.
    now rewrite <- !app_assoc.
Qed.

Lemma main_needs_the_manifest_witness :
  main no_manifest []
    = (Exited 1,
       [Stat "satchel.toml"; Log "Input file 'satchel.toml' not found"])
  /\ main bad_toml []
     = (Exited 1,
        [Stat "satchel.toml"; LoadFile "satchel.toml";
         Log "Error Loading File satchel.toml: (1, 1): unexpected token"]).
Proof.
  split.
  - exact (proj1 (main_needs_the_manifest
                    no_manifest [] "no such file or directory") eq_refl).
  - exact (proj2 (main_needs_the_manifest
                    bad_toml [] "(1, 1): unexpected token")
                 eq_refl eq_refl).
Defined.

(** X12.  A failed pull ends the whole run: nothing is tagged, no image
    list is asked for, no archive and no script are written. *)
Theorem main_stops_at_failed_pull (w : World) (tree : Tree)
    (pre post : list Image) (image : Image) (tr : list Event) (e : string) :
  statErr w (inputFile (flags w)) = None ->
  tomlLoadFile w (inputFile (flags w)) = inr tree ->
  defaultTags (decoded tree) = (pre ++ image :: post)%list ->
  newEnvClientErr w = None ->
  (forall earlier, In earlier (kept (includePublic (flags w)) pre) ->
                   imagePullErr w (ImageName earlier) = None) ->
  skipped (includePublic (flags w)) image = false ->
  imagePullErr w (ImageName image) = Some e ->
  main w tr
  = (Exited 1,
     (tr ++ [Stat (inputFile (flags w)); LoadFile (inputFile (flags w))]
         ++ NewEnvClient
         :: flat_map pullEvents (kept (includePublic (flags w)) pre)
         ++ pullAttempt image ++ [Log e])%list).
Proof.
  intros Hstat Hload Hsplit Hcli Hpre Hkept Hfail.
  rewrite (main_after_load w tree tr Hstat Hload). cbv zeta.
  rewrite Hsplit. unfold bind at 1.
  rewrite (PullMore.pullImages_run_fail _ _ _ _ _ e Hcli Hpre Hkept Hfail).
  now rewrite <- !app_assoc.
Qed.

Lemma main_stops_at_failed_pull_witness :
  main second_pull_refused []
  = (Exited 1,
     [Stat "satchel.toml"; LoadFile "satchel.toml"; NewEnvClient;
      Log ("Pulling Image java:8" ++ nl); ImagePull "java:8";
      Opened (PullStream "java:8");
      Log ("Pulling Image gcr.io/google-containers/pause:1.0" ++ nl);
      ImagePull "gcr.io/google-containers/pause:1.0";
      Log "pull access denied"]).
Proof.
  apply (main_stops_at_failed_pull
           second_pull_refused (mkTree readme_images None)
           [java] [] pause [] "pull access denied");
    try reflexivity.
  intros earlier [E|[]]. subst earlier. reflexivity.
Defined.



(** ** More on the archiving stage *)

Module SaveMore.

Lemma saveImages_list_error images w tr e :
  newEnvClientErr w = None ->
  imageListRes w = inl e ->
  saveImages images w tr
  = (Exited 1,
     (tr ++ [NewEnvClient; ImageList;
             Log ("Error Getting Docker Image List: " ++ e)])%list).
Proof.
  intros Hcli Hlist.
  unfold saveImages, newDockerClient, cli_ImageList.
  run_step. rewrite Hcli, Hlist. now rewrite <- !app_assoc.
Qed.

Lemma saveImages_save_error images w sums tr e :
  newEnvClientErr w = None ->
  imageListRes w = inr sums ->
  imageSaveErr w (findImageIds (includePublic (flags w)) images sums)
    = Some e ->
  saveImages images w tr
  = (Exited 1,
     (tr ++ [NewEnvClient; ImageList;
             ImageSave (findImageIds (includePublic (flags w)) images sums);
             Log ("Error saving images: " ++ e)])%list).
Proof.
  intros Hcli Hlist Hsave.
  unfold saveImages, newDockerClient, cli_ImageList, cli_ImageSave.
  run_step. rewrite Hcli, Hlist. simpl. rewrite Hsave.
  now rewrite <- !app_assoc.
Qed.

Lemma saveImages_create_error images w sums tr e :
  newEnvClientErr w = None ->
  imageListRes w = inr sums ->
  imageSaveErr w (findImageIds (includePublic (flags w)) images sums) = None ->
  createErr w (outputFile (flags w)) = Some e ->
  saveImages images w tr
  = (Exited 1,
     (tr ++ [NewEnvClient; ImageList;
             ImageSave (findImageIds (includePublic (flags w)) images sums);
             Opened ExportStream;
             Log ("Writing images to " ++ outputFile (flags w));
             Create (outputFile (flags w));
             Log ("Error Creating Image File " ++ outputFile (flags w)
                  ++ ": " ++ e)])%list).
Proof.
  intros Hcli Hlist Hsave Hcreate.
  unfold saveImages, newDockerClient, cli_ImageList, cli_ImageSave,
    os_Create.
  run_step. rewrite Hcli, Hlist. simpl. rewrite Hsave. simpl.
  rewrite Hcreate. now rewrite <- !app_assoc.
Qed.

End SaveMore.

(** X14.  The archiving stage ends the process with status 1 and a
    diagnostic when the daemon cannot list its images or cannot open the
    export; in both cases before the output file is created, so an
    archive already on disk is not truncated. *)
Theorem saveImages_fails_before_the_archive (w : World)
    (images : list Image) (tr : list Event) (e : string) :
  newEnvClientErr w = None ->
  (imageListRes w = inl e ->
   saveImages images w tr
   = (Exited 1,
      (tr ++ [NewEnvClient; ImageList;
              Log ("Error Getting Docker Image List: " ++ e)])%list))
  /\ (forall sums,
        imageListRes w = inr sums ->
        imageSaveErr w (findImageIds (includePublic (flags w)) images sums)
          = Some e ->
        saveImages images w tr
        = (Exited 1,
           (tr ++ [NewEnvClient; ImageList;
                   ImageSave (findImageIds (includePublic (flags w))
                                           images sums);
                   Log ("Error saving images: " ++ e)])%list)).
Proof.
  intros Hcli. split.
  - intros Hlist. now apply SaveMore.saveImages_list_error.
  - intros sums Hlist Hsave. now apply SaveMore.saveImages_save_error.
Qed.

Lemma saveImages_fails_before_the_archive_witness :
  saveImages readme_images no_list []
    = (Exited 1,
       [NewEnvClient; ImageList;
        Log "Error Getting Docker Image List: daemon is not running"])
  /\ saveImages readme_images no_export []
     = (Exited 1,
        [NewEnvClient; ImageList; ImageSave ["sha256:pause"];
         Log "Error saving images: no such image"]).
Proof.
  split.
  - exact (proj1 (saveImages_fails_before_the_archive
                    no_list readme_images [] "daemon is not running" eq_refl)
                 eq_refl).
  - exact (proj2 (saveImages_fails_before_the_archive
                    no_export readme_images [] "no such image" eq_refl)
                 readme_summaries eq_refl eq_refl).
Defined.

(** X15.  When the output file cannot be created the archiving stage
    ends the process with status 1 and a diagnostic naming the file; the
    export stream it has opened by then is not closed. *)
Theorem saveImages_fails_at_the_archive (w : World) (images : list Image)
    (sums : list ImageSummary) (e : string) :
  newEnvClientErr w = None ->
  imageListRes w = inr sums ->
  imageSaveErr w (findImageIds (includePublic (flags w)) images sums) = None ->
  createErr w (outputFile (flags w)) = Some e ->
  saveImages images w []
  = (Exited 1,
     [NewEnvClient; ImageList;
      ImageSave (findImageIds (includePublic (flags w)) images sums);
      Opened ExportStream;
      Log ("Writing images to " ++ outputFile (flags w));
      Create (outputFile (flags w));
      Log ("Error Creating Image File " ++ outputFile (flags w)
           ++ ": " ++ e)])
  /\ held (trace (saveImages images) w) = [ExportStream].
Proof.
  intros Hcli Hlist Hsave Hcreate.
  assert (E := SaveMore.saveImages_create_error
                 images w sums [] e Hcli Hlist Hsave Hcreate).
  split; [exact E|]. unfold trace. rewrite E. reflexivity.
Qed.

Lemma saveImages_fails_at_the_archive_witness :
  saveImages readme_images no_archive []
  = (Exited 1,
     [NewEnvClient; ImageList; ImageSave ["sha256:pause"];
      Opened ExportStream; Log "Writing images to my-images.tgz";
      Create "my-images.tgz";
      Log "Error Creating Image File my-images.tgz: permission denied"])
  /\ held (trace (saveImages readme_images) no_archive) = [ExportStream].
Proof.
  exact (saveImages_fails_at_the_archive
           no_archive readme_images readme_summaries "permission denied"
           eq_refl eq_refl eq_refl eq_refl).
Defined.



(** ** More on the script generator *)

Module ScriptMore.

Lemma generateScript_open_error d w tr e :
  openFileErr w loadScriptName = Some e ->
  generateScript d w tr
  = (Exited 1,
     (tr ++ [Log ("Writing load script '" ++ loadScriptName ++ "'");
             OpenFile loadScriptName;
             Log "Error generating load script: invalid argument"])%list).
Proof.
  intros Hopen.
  unfold generateScript, os_OpenFile, template_Execute, file_Close.
  unfold log_Printf, log_Fatal, bind, ask, ret, emit.
  rewrite Hopen. cbn [fst snd].
  change (execNodes loadScriptTemplate
            (scriptData (outputFile (flags w)) d))
    with (renderScript (outputFile (flags w)) d).
  rewrite renderScript_text. now rewrite <- !app_assoc.
Qed.

Lemma generateScript_write_error d w tr e :
  openFileErr w loadScriptName = None ->
  writeErr w = Some e ->
  generateScript d w tr
  = (Exited 1,
     (tr ++ [Log ("Writing load script '" ++ loadScriptName ++ "'");
             OpenFile loadScriptName;
             Opened (ScriptFile loadScriptName);
             Log ("Error generating load script: " ++ e)])%list).
Proof.
  intros Hopen Hwrite.
  unfold generateScript, os_OpenFile, template_Execute, file_Close.
  unfold log_Printf, log_Fatal, bind, ask, ret, emit.
  rewrite Hopen. cbn [fst snd].
  change (execNodes loadScriptTemplate
            (scriptData (outputFile (flags w)) d))
    with (renderScript (outputFile (flags w)) d).
  rewrite renderScript_text, Hwrite. now rewrite <- !app_assoc.
Qed.

Lemma blocks_same_names images images' :
  map Repository images = map Repository images' ->
  map Tag images = map Tag images' ->
  map tagBlock images = map tagBlock images'
  /\ map pushBlock images = map pushBlock images'.
Proof.
  revert images'.
  induction images as [|a rest IH]; intros [|a' rest']; simpl;
    try discriminate; [auto|].
  intros Hr Ht. injection Hr as Hr1 Hr2. injection Ht as Ht1 Ht2.
  destruct (IH rest' Hr2 Ht2) as [E1 E2]. rewrite E1, E2.
  unfold tagBlock, pushBlock, tagCommand, pushCommand, ImageNameNoRegistry.
  now rewrite Hr1, Ht1.
Qed.

Lemma kept_all_public images :
  (forall image, In image images -> Public image = true) ->
  kept false images = [].
Proof.
  intros Hall. unfold kept.
  induction images as [|image rest IH]; [reflexivity|].
  simpl. unfold skipped at 1. rewrite (Hall image (or_introl eq_refl)).
  simpl. apply IH. intros i Hi. apply Hall. now right.
Qed.

End ScriptMore.

(** X17.  When the script file cannot be opened, the error of the open is
    not looked at; the run ends with status 1 at the first write, the
    diagnostic being that of a write to an invalid file, and nothing is
    written. *)
Theorem generateScript_fails_at_open (w : World) (d : Descriptor)
    (tr : list Event) (e : string) :
  openFileErr w loadScriptName = Some e ->
  generateScript d w tr
  = (Exited 1,
     (tr ++ [Log ("Writing load script '" ++ loadScriptName ++ "'");
             OpenFile loadScriptName;
             Log "Error generating load script: invalid argument"])%list).
Proof. apply ScriptMore.generateScript_open_error. Qed.

Lemma generateScript_fails_at_open_witness :
  generateScript (mkDescriptor readme_images) no_script []
  = (Exited 1,
     [Log "Writing load script 'load-images.sh'";
      OpenFile "load-images.sh";
      Log "Error generating load script: invalid argument"]).
Proof.
  exact (generateScript_fails_at_open
           no_script (mkDescriptor readme_images) [] "permission denied"
           eq_refl).
Defined.

(** X18.  When writing the script fails, the run ends with status 1 and
    the diagnostic carries the write error; the script file stays open,
    since the deferred close does not run at exit. *)
Theorem generateScript_fails_at_write (w : World) (d : Descriptor)
    (e : string) :
  openFileErr w loadScriptName = None ->
  writeErr w = Some e ->
  generateScript d w []
  = (Exited 1,
     [Log ("Writing load script '" ++ loadScriptName ++ "'");
      OpenFile loadScriptName;
      Opened (ScriptFile loadScriptName);
      Log ("Error generating load script: " ++ e)])
  /\ held (trace (generateScript d) w) = [ScriptFile loadScriptName].
Proof.
  intros Hopen Hwrite.
  assert (E := ScriptMore.generateScript_write_error d w [] e Hopen Hwrite).
  split; [exact E|]. unfold trace. rewrite E. reflexivity.
Qed.

Lemma generateScript_fails_at_write_witness :
  generateScript (mkDescriptor readme_images) disk_full []
  = (Exited 1,
     [Log "Writing load script 'load-images.sh'";
      OpenFile "load-images.sh"; Opened (ScriptFile "load-images.sh");
      Log "Error generating load script: no space left on device"])
  /\ held (trace (generateScript (mkDescriptor readme_images)) disk_full)
     = [ScriptFile "load-images.sh"].
Proof.
  exact (generateScript_fails_at_write
           disk_full (mkDescriptor readme_images) "no space left on device"
           eq_refl eq_refl).
Defined.

(** X19.  The load script depends on the repository and the tag of each
    image only: manifests that agree on these give the same script,
    whatever their registries and public bits. *)
Theorem script_ignores_registry_and_public (outputFile : string)
    (d d' : Descriptor) :
  map Repository (Images d) = map Repository (Images d') ->
  map Tag (Images d) = map Tag (Images d') ->
  renderScript outputFile d = renderScript outputFile d'.
Proof.
  intros Hr Ht. rewrite !renderScript_text. unfold scriptText.
  destruct (ScriptMore.blocks_same_names _ _ Hr Ht) as [E1 E2].
  now rewrite E1, E2.
Qed.

Lemma script_ignores_registry_and_public_witness :
  renderScript "my-images.tgz" (mkDescriptor [java; pause])
  = renderScript "my-images.tgz"
                 (mkDescriptor [java_elsewhere; pause_elsewhere]).
Proof.
  exact (script_ignores_registry_and_public
           "my-images.tgz" (mkDescriptor [java; pause])
           (mkDescriptor [java_elsewhere; pause_elsewhere])
           eq_refl eq_refl).
Defined.

(** X20.  With the flag off, a manifest of public images only still runs
    to the end: nothing is pulled or tagged, the daemon is asked to
    export an empty list of IDs, and the script nevertheless lists every
    image of the manifest. *)
Theorem public_only_manifest_run (w : World) (tree : Tree)
    (sums : list ImageSummary) :
  includePublic (flags w) = false ->
  (forall image, In image (decoded tree) -> Public image = true) ->
  statErr w (inputFile (flags w)) = None ->
  tomlLoadFile w (inputFile (flags w)) = inr tree ->
  newEnvClientErr w = None ->
  imageListRes w = inr sums ->
  imageSaveErr w [] = None ->
  createErr w (outputFile (flags w)) = None ->
  openFileErr w loadScriptName = None ->
  writeErr w = None ->
  main w []
  = (Returned tt,
     [Stat (inputFile (flags w)); LoadFile (inputFile (flags w));
      NewEnvClient; NewEnvClient;
      NewEnvClient; ImageList; ImageSave []; Opened ExportStream;
      Log ("Writing images to " ++ outputFile (flags w));
      Create (outputFile (flags w));
      Opened (OutFile (outputFile (flags w)));
      Opened GzipWriter; Copy; Closed ExportStream; Closed GzipWriter;
      Log ("Writing load script '" ++ loadScriptName ++ "'");
      OpenFile loadScriptName; Opened (ScriptFile loadScriptName);
      WriteFile loadScriptName
                (scriptText (outputFile (flags w))
                            (defaultTags (decoded tree)));
      Closed (ScriptFile loadScriptName)]).
Proof.
  intros Hflag Hpublic Hstat Hload Hcli Hlist Hsave Hcreate Hopen Hwrite.
  assert (Hloaded : forall image, In image (defaultTags (decoded tree)) ->
                                  Public image = true).
  { intros image Hin. unfold defaultTags in Hin. apply in_map_iff in Hin.
    destruct Hin as [entry [E Hentry]]. subst image.
    unfold defaultTag. destruct (Tag entry =? EmptyString); simpl;
      now apply Hpublic. }
  assert (Hkept : kept (includePublic (flags w)) (defaultTags (decoded tree))
                  = []).
  { rewrite Hflag. now apply ScriptMore.kept_all_public. }
  assert (Hids : findImageIds (includePublic (flags w))
                              (defaultTags (decoded tree)) sums = []).
  { rewrite Hflag, findImageIds_filter.
    rewrite ResolverMore.filter_none; [reflexivity|].
    intros s. unfold selected.
    rewrite ResolverMore.wanted_all_skipped; [apply andb_false_r|].
    intros image Hin. unfold skipped. now rewrite (Hloaded image Hin). }
  rewrite (main_after_load w tree [] Hstat Hload). cbv zeta.
  rewrite (MainFacts.stages_run w (defaultTags (decoded tree)) sums).
  - rewrite Hkept, Hids. reflexivity.
  - exact Hcli.
  - rewrite Hkept. intros image [].
  - exact Hlist.
  - now rewrite Hids.
  - exact Hcreate.
  - exact Hopen.
  - exact Hwrite.
Qed.

Lemma public_only_manifest_run_witness :
  main public_only_world []
  = (Returned tt,
     [Stat "satchel.toml"; LoadFile "satchel.toml";
      NewEnvClient; NewEnvClient;
      NewEnvClient; ImageList; ImageSave []; Opened ExportStream;
      Log "Writing images to my-images.tgz";
      Create "my-images.tgz"; Opened (OutFile "my-images.tgz");
      Opened GzipWriter; Copy; Closed ExportStream; Closed GzipWriter;
      Log "Writing load script 'load-images.sh'";
      OpenFile "load-images.sh"; Opened (ScriptFile "load-images.sh");
      WriteFile "load-images.sh" (scriptText "my-images.tgz" public_only);
      Closed (ScriptFile "load-images.sh")]).
Proof.
  apply (public_only_manifest_run
           public_only_world (mkTree public_only None) readme_summaries);
    try reflexivity.
  intros image [E|[E|[]]]; subst image; reflexivity.
Defined.
